(** * ZMFH resolver: a shallow embedding of [zmfh/resolver/resolve.py] and
    [zmfh/runtime/origins_cache.py], with the properties of the resolution
    orchestrator stated and proved over it.

    The Python code is stateful (process-wide registry, index memo) and
    uses [try/except]; it is embedded in a small monad with state,
    exceptions and a log of the registry and index operations performed.

    What the resolver imports from modules outside these two files is
    either a field of an environment record, over which every theorem
    quantifies (the policy oracle, the host import machinery, the
    verifier, the descriptor builder, the directory walk, the [os.path]
    primitives), or a small model that follows the specification (the
    registry and the index memo).

    Exceptions.  The collaborators are taken at their contract: they
    return a value ([verify_candidate] answers [ok = False] rather than
    raising, [make_spec] and [python_find_spec] answer [None]).  The
    [os.path] primitives that the source itself wraps in [try/except]
    ([os.path.abspath] through [_norm_abs], and [os.path.exists]) may
    raise: [abspath] calls [os.getcwd()], which fails when the working
    directory has been removed. *)

From Stdlib Require Import ZArith String Ascii.
From stdpp Require Import gmap strings list sorting.

Local Open Scope string_scope.

(** ** Data model *)

(** [Candidate.kind] is the string ["module"] or ["package"]. *)
Inductive Kind : Type := kind_module | kind_package.

(** [zmfh.registry.scan.Candidate] as the resolver builds it at lines
    114-116 of resolve.py. *)
Record Candidate : Type := mkCandidate {
  kind : Kind;
  path : string;
  package_dir : option string
}.

(** The fingerprint returned by [verify_candidate]: a change-detection
    tuple of integers, compared with [==]. *)
Definition Fingerprint : Type := list Z.

(** What the host machinery and [make_spec] hand back.  [spec_origin] is
    [getattr(spec, "origin", None)] restricted to strings: [None] stands
    for a missing attribute, [None] itself, or any non-string value. *)
Record ModuleSpec : Type := mkModuleSpec {
  spec_name : string;
  spec_origin : option string
}.

(** [zmfh.registry.cache.Cached] (imported as [CacheEntry]). *)
Record Cached : Type := mkCached {
  cached_candidate : Candidate;
  fp : option Fingerprint
}.

(** [zmfh.registry.cache.Observed]. *)
Record Observed : Type := mkObserved {
  observed_candidate : Candidate
}.

(** The fields of [zmfh.policy.model.Policy] that the resolver reads. *)
Record Policy : Type := mkPolicy {
  roots : list string;
  cache_enabled : bool;
  raise_on_deleted : bool
}.

(** The two fields of the value returned by [zmfh.policy.decision.decide]. *)
Record PolicyDecision : Type := mkPolicyDecision {
  handle : bool;
  managed : bool
}.

(** The three shapes [resolve] returns: the dataclasses [Resolved] and
    [Deleted], and the sentinel [UNHANDLED]. *)
Inductive Outcome : Type :=
  | Resolved (fullname : string) (candidate : Candidate)
             (spec : ModuleSpec) (is_managed : bool)
  | Deleted (fullname : string) (last_known_paths : list string)
            (is_managed : bool)
  | UNHANDLED.

(** A scan snapshot: qualified name to candidate locations. *)
Abbreviation Index := (gmap string (list Candidate)).

(** The key under which an index snapshot is memoized. *)
Abbreviation IndexKey := (string * gset string * Z)%type.

(** Python exceptions that the modelled primitives can raise.  Every
    handler in the source is [except Exception], so the tag is only
    informative. *)
Inductive exn : Type := OSError | ValueError | TypeError.

Inductive result (A : Type) : Type :=
  | Ok (a : A)
  | Raise (e : exn).
Arguments Ok {A} a.
Arguments Raise {A} e.

(** ** Environment: the collaborators of the resolver

    Functions that read the outside world take the current value of a
    logical clock, so that the file system may change between any two
    calls of one resolution (the race the retry in [resolve] is for). *)
Record Env : Type := mkEnv {
  (** [os.sep] *)
  env_sep : string;
  (** [os.path.normcase] *)
  env_normcase : string -> string;
  (** [os.path.abspath]; it raises when the working directory is gone *)
  env_abspath : string -> result string;
  (** [os.path.isabs] *)
  env_isabs : string -> bool;
  (** [os.path.dirname] *)
  env_dirname : string -> string;
  (** [os.path.exists] *)
  env_exists : nat -> string -> result bool;
  (** [zmfh.resolver.keyspace.is_supported_fullname] *)
  env_supported : string -> bool;
  (** [zmfh.policy.decision.decide] *)
  env_decide : string -> Policy -> PolicyDecision;
  (** [zmfh.resolver.fallback.python_find_spec] *)
  env_find_spec : nat -> string -> option (list string) -> option ModuleSpec;
  (** [zmfh.resolver.verify.verify_candidate] *)
  env_verify : nat -> Candidate -> bool * option Fingerprint;
  (** [zmfh.resolver.spec_factory.make_spec] *)
  env_make_spec : nat -> string -> Candidate -> option ModuleSpec;
  (** the directory walk behind [zmfh.registry.index.get_index] *)
  env_scan : nat -> string -> gset string -> Z -> Index
}.

(** ** Process state and the probe

    The registry (Resolution Cache and Observed Records), the index memo
    and the logical clock. *)
Record State : Type := mkState {
  cache : gmap string Cached;
  observed : gmap string Observed;
  index_memo : gmap IndexKey Index;
  clock : nat
}.

(** What a probe around the registry and the index would see. *)
Inductive Event : Type :=
  | EvCacheGet (name : string)
  | EvCachePut (name : string) (entry : Cached)
  | EvCacheDrop (name : string)
  | EvObservedGet (name : string)
  | EvObservedPut (name : string) (cand : Candidate)
  | EvGetIndex (root : string)
  | EvScan (root : string)
  | EvInvalidate
  | EvCandidates (name : string) (cands : list Candidate)
  | EvDiagnose (name : string) (hints : list string).

(** One run of a computation: what it returned or raised, the state it
    left, and the events it emitted, oldest first. *)
Record Run (A : Type) : Type := mkRun {
  value : result A;
  final : State;
  events : list Event
}.
Arguments mkRun {A} value final events.
Arguments value {A} r.
Arguments final {A} r.
Arguments events {A} r.

Definition M (A : Type) : Type := State -> Run A.

Definition ret {A} (a : A) : M A := fun st => mkRun (Ok a) st [].

Definition raise {A} (e : exn) : M A := fun st => mkRun (Raise e) st [].

Definition bind {A B} (m : M A) (k : A -> M B) : M B := fun st =>
  match m st with
  | mkRun (Ok a) st1 ev1 =>
      match k a st1 with
      | mkRun v st2 ev2 => mkRun v st2 (ev1 ++ ev2)
      end
  | mkRun (Raise e) st1 ev1 => mkRun (Raise e) st1 ev1
  end.

(** [try: m except Exception: h] *)
Definition try_except {A} (m : M A) (h : M A) : M A := fun st =>
  match m st with
  | mkRun (Ok a) st1 ev1 => mkRun (Ok a) st1 ev1
  | mkRun (Raise _) st1 ev1 =>
      match h st1 with
      | mkRun v st2 ev2 => mkRun v st2 (ev1 ++ ev2)
      end
  end.

Declare Scope monad_scope.
Delimit Scope monad_scope with monad.
Notation "x <- m ;; k" := (bind m (fun x => k))
  (at level 100, m at next level, right associativity) : monad_scope.
Notation "m ;;; k" := (bind m (fun _ => k))
  (at level 100, right associativity) : monad_scope.
Local Open Scope monad_scope.

Definition emit (e : Event) : M unit := fun st => mkRun (Ok tt) st [e].

Definition lift {A} (r : result A) : M A := fun st => mkRun r st [].

(** Read the clock and advance it: one interaction with the outside. *)
Definition tick : M nat := fun st =>
  mkRun (Ok (clock st))
        (mkState (cache st) (observed st) (index_memo st) (S (clock st))) [].

(** ** String helpers for the Python string methods the code uses *)

(** [s.startswith(pre)] *)
Definition startswith (s pre : string) : bool := String.prefix pre s.

(** [s.endswith(suf)] *)
Definition endswith (s suf : string) : bool :=
  (String.length suf <=? String.length s)%nat &&
  (substring (String.length s - String.length suf) (String.length suf) s =? suf)%string.

(** The order of [sorted] on [str]: lexicographic on the characters. *)
Definition str_le (a b : string) : Prop := String.leb a b = true.

#[global] Instance str_le_dec (a b : string) : Decision (str_le a b).
Proof. unfold str_le. apply _. Defined.

(** [sorted(vanished)] for a set of strings. *)
Definition sorted (s : gset string) : list string :=
  merge_sort str_le (elements s).

Section Resolver.

Context (E : Env).

(** ** The registry and the index

    [zmfh.registry.cache] and [zmfh.registry.index] are not among the
    source files; the operations [resolve] imports from them follow
    sections 4.3 and 4.5 of the specification.  Each one reports itself to
    the probe. *)

(** Modelled from the spec: [registry.cache.get], the read of the
    Resolution Cache, [get(name)] over [(candidate, fingerprint)]. *)
Definition cache_get (name : string) : M (option Cached) := fun st =>
  mkRun (Ok (cache st !! name)) st [EvCacheGet name].

(** Modelled from the spec: [registry.cache.put], [put(name)]. *)
Definition cache_put (name : string) (entry : Cached) : M unit := fun st =>
  mkRun (Ok tt)
        (mkState (<[name := entry]> (cache st)) (observed st) (index_memo st) (clock st))
        [EvCachePut name entry].

(** Modelled from the spec: [registry.cache.drop], [drop(name)]. *)
Definition cache_drop (name : string) : M unit := fun st =>
  mkRun (Ok tt)
        (mkState (delete name (cache st)) (observed st) (index_memo st) (clock st))
        [EvCacheDrop name].

(** Modelled from the spec: [registry.cache.observed_get], [get(name)]
    over the Observed Records. *)
Definition observed_get (name : string) : M (option Observed) := fun st =>
  mkRun (Ok (observed st !! name)) st [EvObservedGet name].

(** Modelled from the spec: [registry.cache.observed_put], [put(name)]
    over the Observed Records, last write wins. *)
Definition observed_put (name : string) (o : Observed) : M unit := fun st =>
  mkRun (Ok tt)
        (mkState (cache st) (<[name := o]> (observed st)) (index_memo st) (clock st))
        [EvObservedPut name (observed_candidate o)].

(** Modelled from the spec: [registry.index.get_index].  The index is
    memoized per [(root, exclude_dirs, max_files)]; a miss walks the
    directory tree and remembers the snapshot. *)
Definition get_index (root : string) (exclude_dirs : gset string) (max_files : Z)
  : M Index := fun st =>
  match index_memo st !! (root, exclude_dirs, max_files) with
  | Some idx => mkRun (Ok idx) st [EvGetIndex root]
  | None =>
      let idx := env_scan E (clock st) root exclude_dirs max_files in
      mkRun (Ok idx)
            (mkState (cache st) (observed st)
                     (<[(root, exclude_dirs, max_files) := idx]> (index_memo st))
                     (S (clock st)))
            [EvGetIndex root; EvScan root]
  end.

(** Modelled from the spec: [registry.index.invalidate], which clears the
    whole memo, not one root. *)
Definition invalidate_index : M unit := fun st =>
  mkRun (Ok tt) (mkState (cache st) (observed st) ∅ (clock st)) [EvInvalidate].

(** Modelled from the spec: [idx.get_candidates(fullname) or []], zero,
    one or many candidates for the name. *)
Definition get_candidates (idx : Index) (fullname : string) : M (list Candidate) :=
  let cands := default [] (idx !! fullname) in
  emit (EvCandidates fullname cands) ;;; ret cands.

(** ** The collaborators, each one interaction with the outside *)

Definition python_find_spec (fullname : string) (search_path : option (list string))
  : M (option ModuleSpec) :=
  t <- tick ;; ret (env_find_spec E t fullname search_path).

Definition verify_candidate (cand : Candidate) : M (bool * option Fingerprint) :=
  t <- tick ;; ret (env_verify E t cand).

Definition make_spec (fullname : string) (cand : Candidate) : M (option ModuleSpec) :=
  t <- tick ;; ret (env_make_spec E t fullname cand).

(** [os.path.exists(p)] *)
Definition os_path_exists (p : string) : M bool :=
  t <- tick ;; lift (env_exists E t p).

(** ** resolve.py *)

(** Lines 62-63. *)
Definition _norm_abs (p : string) : M string := lift (env_abspath E p).

(** The loop of [_roots], lines 70-75. *)
Fixpoint _roots_loop (rs abs_roots cmp_roots : list string)
  : M (list string * list string) :=
  match rs with
  | [] => ret (abs_roots, cmp_roots)
  | r :: rs' =>
      if (r =? "")%string then _roots_loop rs' abs_roots cmp_roots
      else
        a <- _norm_abs r ;;
        _roots_loop rs' (abs_roots ++ [a]) (cmp_roots ++ [env_normcase E a])
  end.

(** [roots = list(policy.roots) if policy.roots else [root]], line 67. *)
Definition managed_roots (policy : Policy) (root : string) : list string :=
  match roots policy with
  | [] => [root]
  | _ :: _ => roots policy
  end.

(** Lines 66-76. *)
Definition _roots (policy : Policy) (root : string) : M (list string * list string) :=
  _roots_loop (managed_roots policy root) [] [].

(** Lines 79-87, after [p = os.path.normcase(path_abs)]. *)
Fixpoint _is_under_any_loop (p : string) (roots_cmp : list string) : bool :=
  match roots_cmp with
  | [] => false
  | r :: rest =>
      if (p =? r)%string then true
      else
        let r_sep := r ++ env_sep E in
        if startswith p r_sep then true
        else _is_under_any_loop p rest
  end.

Definition _is_under_any (path_abs : string) (roots_cmp : list string) : bool :=
  let p := env_normcase E path_abs in
  _is_under_any_loop p roots_cmp.

(** Lines 90-98. *)
Definition _observe_candidate (fullname : string) (cand : Candidate)
    (roots_cmp : list string) : M unit :=
  try_except
    (p <- _norm_abs (path cand) ;;
     if negb (_is_under_any p roots_cmp) then ret tt
     else observed_put fullname (mkObserved cand))
    (ret tt).

(** Lines 101-118. *)
Definition _observe_python_spec (fullname : string) (spec : ModuleSpec)
    (roots_cmp : list string) : M unit :=
  match spec_origin spec with
  | None => ret tt
  | Some origin =>
      if (origin =? "")%string then ret tt
      else if (origin =? "built-in")%string || (origin =? "frozen")%string then ret tt
      else
        origin_abs <- _norm_abs origin ;;
        if negb (_is_under_any origin_abs roots_cmp) then ret tt
        else
          let cand :=
            if endswith origin_abs (env_sep E ++ "__init__.py")
            then mkCandidate kind_package origin_abs (Some (env_dirname E origin_abs))
            else mkCandidate kind_module origin_abs None in
          observed_put fullname (mkObserved cand)
  end.

(** Lines 132-134, and again lines 142-144:
    [ap = _norm_abs(p)], then [vanished.add(ap)] if
    [_is_under_any(ap, roots_cmp) and not os.path.exists(ap)]. *)
Definition add_if_vanished (roots_cmp : list string) (p : string)
    (vanished : gset string) : M (gset string) :=
  ap <- _norm_abs p ;;
  if _is_under_any ap roots_cmp then
    ex <- os_path_exists ap ;;
    if negb ex then ret ({[ap]} ∪ vanished) else ret vanished
  else ret vanished.

(** The first loop of [_deleted_paths], lines 130-136. *)
Fixpoint _deleted_paths_hints (roots_cmp : list string) (missing_hints : list string)
    (vanished : gset string) : M (gset string) :=
  match missing_hints with
  | [] => ret vanished
  | p :: rest =>
      vanished' <-
        try_except (add_if_vanished roots_cmp p vanished)
                   (* except Exception: continue *) (ret vanished) ;;
      _deleted_paths_hints roots_cmp rest vanished'
  end.

(** Lines 121-148.  The first event tells the probe which hints the
    diagnosis was asked about. *)
Definition _deleted_paths (fullname : string) (roots_cmp : list string)
    (missing_hints : list string) : M (list string) :=
  emit (EvDiagnose fullname missing_hints) ;;;
  (* Hints (usually from a stale cache entry) *)
  vanished <- _deleted_paths_hints roots_cmp missing_hints ∅ ;;
  (* Observed origins (CPython or ZMFH) under roots *)
  vanished' <-
    try_except
      (obs <- observed_get fullname ;;
       match obs with
       | Some o => add_if_vanished roots_cmp (path (observed_candidate o)) vanished
       | None => ret vanished
       end)
      (* except Exception: pass *) (ret vanished) ;;
  ret (sorted vanished').

(** Lines 239-247: build the descriptor, cache, observe, return. *)
Definition build_and_cache (fullname : string) (policy : Policy) (is_managed : bool)
    (roots_cmp : list string) (picked : Candidate) (fp1 : option Fingerprint)
  : M Outcome :=
  spec <- make_spec fullname picked ;;
  match spec with
  | None => ret UNHANDLED
  | Some spec =>
      (if cache_enabled policy
       then cache_put fullname (mkCached picked fp1)
       else ret tt) ;;;
      _observe_candidate fullname picked roots_cmp ;;;
      ret (Resolved fullname picked spec is_managed)
  end.

(** Lines 200-247: the root scan, with the hints collected so far. *)
Definition resolve_scan (fullname root : string) (policy : Policy)
    (exclude_dirs : gset string) (max_files : Z) (is_managed : bool)
    (roots_cmp : list string) (missing_hints : list string) : M Outcome :=
  idx <- get_index root exclude_dirs max_files ;;
  cands <- get_candidates idx fullname ;;
  match cands with
  | [] =>
      (* Missing *)
      if raise_on_deleted policy then
        vanished <- _deleted_paths fullname roots_cmp missing_hints ;;
        match vanished with
        | _ :: _ => ret (Deleted fullname vanished is_managed)
        | [] => ret UNHANDLED
        end
      else ret UNHANDLED
  | _ :: _ :: _ =>
      (* Ambiguous *)
      ret UNHANDLED
  | [picked] =>
      verdict <- verify_candidate picked ;;
      let '(ok, fp1) := verdict in
      if negb ok then
        invalidate_index ;;;
        idx <- get_index root exclude_dirs max_files ;;
        cands2 <- get_candidates idx fullname ;;
        match cands2 with
        | [] =>
            if raise_on_deleted policy then
              vanished <- _deleted_paths fullname roots_cmp missing_hints ;;
              match vanished with
              | _ :: _ => ret (Deleted fullname vanished is_managed)
              | [] => ret UNHANDLED
              end
            else ret UNHANDLED
        | _ :: _ :: _ => ret UNHANDLED
        | [picked] =>
            verdict <- verify_candidate picked ;;
            let '(ok, fp1) := verdict in
            if negb ok then
              if raise_on_deleted policy then
                vanished <- _deleted_paths fullname roots_cmp
                              (missing_hints ++ [path picked]) ;;
                match vanished with
                | _ :: _ => ret (Deleted fullname vanished is_managed)
                | [] => ret UNHANDLED
                end
              else ret UNHANDLED
            else build_and_cache fullname policy is_managed roots_cmp picked fp1
        end
      else build_and_cache fullname policy is_managed roots_cmp picked fp1
  end.

(** Lines 186: [ok and fp is not None and cached.fp == fp]. *)
Definition cache_fresh (cached : Cached) (ok : bool) (fp1 : option Fingerprint) : bool :=
  match fp1 with
  | Some f => ok && bool_decide (fp cached = Some f)
  | None => false
  end.

(** Lines 151-247. *)
Definition resolve (fullname root : string) (policy : Policy)
    (exclude_dirs : gset string) (max_files : Z)
    (search_path : option (list string)) : M Outcome :=
  if negb (env_supported E fullname) then ret UNHANDLED
  else
    let d := env_decide E fullname policy in
    if negb (handle d) then ret UNHANDLED
    else
      let is_managed := managed d in
      both <- _roots policy root ;;
      let '(_abs_roots, roots_cmp) := both in
      (* 1) Fail-open: let CPython handle if it can. *)
      py_spec <- python_find_spec fullname search_path ;;
      match py_spec with
      | Some py_spec =>
          _observe_python_spec fullname py_spec roots_cmp ;;;
          ret UNHANDLED
      | None =>
          (* 2) Cache *)
          cached <- (if cache_enabled policy then cache_get fullname else ret None) ;;
          match cached with
          | None =>
              resolve_scan fullname root policy exclude_dirs max_files
                           is_managed roots_cmp []
          | Some cached =>
              verdict <- verify_candidate (cached_candidate cached) ;;
              let '(ok, fp1) := verdict in
              hit <- (if cache_fresh cached ok fp1
                      then make_spec fullname (cached_candidate cached)
                      else ret None) ;;
              match hit with
              | Some spec =>
                  _observe_candidate fullname (cached_candidate cached) roots_cmp ;;;
                  ret (Resolved fullname (cached_candidate cached) spec is_managed)
              | None =>
                  (* stale cache entry *)
                  missing_hints <-
                    try_except
                      (ex <- os_path_exists (path (cached_candidate cached)) ;;
                       if negb ex then ret [path (cached_candidate cached)]
                       else ret [])
                      (ret []) ;;
                  cache_drop fullname ;;;
                  (* 3) Root scan *)
                  resolve_scan fullname root policy exclude_dirs max_files
                               is_managed roots_cmp missing_hints
              end
          end
      end.

End Resolver.

(** ** origins_cache.py: the Origin Ledger *)
Module OriginsCache.

(** Lines 7-10. *)
Record ZMFH_LastOrigin : Type := mkLastOrigin {
  fullname : string;
  path : string
}.

(** The [pathlib] operations the ledger uses.  A [Path] is represented by
    the string [str] gives for it. *)
Record PathEnv : Type := mkPathEnv {
  (** [str(Path(s))] *)
  path_str : string -> string;
  (** [Path.resolve()] *)
  path_resolve : nat -> string -> result string;
  (** whether [a.relative_to(b)] returns; it raises [ValueError] otherwise *)
  path_is_relative_to : string -> string -> bool;
  (** [Path.exists()] *)
  path_exists : nat -> string -> result bool
}.

(** The module-level dictionary [_LAST]. *)
Abbreviation Ledger := (gmap string ZMFH_LastOrigin).

(** Lines 14-17. *)
Definition record (name p : string) (_LAST : Ledger) : Ledger :=
  if (name =? "")%string || (p =? "")%string then _LAST
  else <[name := mkLastOrigin name p]> _LAST.

(** Lines 19-20. *)
Definition get (name : string) (_LAST : Ledger) : option ZMFH_LastOrigin :=
  _LAST !! name.

Section Ledger.

Context (P : PathEnv).

(** The body of the [try] at lines 31-34, started at clock value [t]:
    [Ok (Some s)] is [return s], [Ok None] falls out of the [try], and
    [Raise] is an exception for the handler.  The second component is the
    clock afterwards. *)
Definition under_root_and_gone (p rp : string) (t : nat)
  : result (option string) * nat :=
  match path_resolve P t p with
  | Raise e => (Raise e, S t)
  | Ok p_abs =>
      match path_resolve P (S t) rp with
      | Raise e => (Raise e, S (S t))
      | Ok r_abs =>
          if negb (path_is_relative_to P p_abs r_abs)
          then (Raise ValueError, S (S t))
          else
            (* was under root *)
            match path_exists P (S (S t)) p with
            | Raise e => (Raise e, S (S (S t)))
            | Ok ex =>
                if negb ex then (Ok (Some p), S (S (S t)))
                else (Ok None, S (S (S t)))
            end
      end
  end.

(** The loop at lines 28-36. *)
Fixpoint vanished_loop (p : string) (roots : list string) (t : nat)
  : result (option string) * nat :=
  match roots with
  | [] => (Ok None, t)
  | r :: rest =>
      let rp := path_str P r in
      match under_root_and_gone p rp t with
      | (Ok (Some s), t') => (Ok (Some s), t')
      | (Ok None, t') => vanished_loop p rest t'
      | (Raise _, t') => (* except Exception: continue *) vanished_loop p rest t'
      end
  end.

(** Lines 22-37. *)
Definition vanished_under_roots (_LAST : Ledger) (name : string)
    (roots : list string) (t : nat) : result (option string) * nat :=
  match get name _LAST with
  | None => (Ok None, t)
  | Some o =>
      let p := path_str P (path o) in
      vanished_loop p roots t
  end.

End Ledger.

End OriginsCache.

(** ** Vocabulary of the statements *)

(** [p] is the normalized form of one of [hints]. *)
Definition from_hint (E : Env) (hints : list string) (p : string) : Prop :=
  exists h, h ∈ hints /\ env_abspath E h = Ok p.

(** [p] is the normalized path of the Observed Record of [name]. *)
Definition from_observed (E : Env) (st : State) (name p : string) : Prop :=
  exists o, observed st !! name = Some o /\
            env_abspath E (path (observed_candidate o)) = Ok p.

(** [os.path.exists(p)] answered [False] at some moment from [t0] up to,
    not including, [t1]. *)
Definition seen_missing (E : Env) (t0 t1 : nat) (p : string) : Prop :=
  exists t, t0 <= t < t1 /\ env_exists E t p = Ok false.

(** [p] lies under the root [r]: equal to it or below it, after
    [normcase], as [_is_under_any] tests it. *)
Definition under_root (E : Env) (p r : string) : Prop :=
  env_normcase E p = r \/ startswith (env_normcase E p) (r ++ env_sep E) = true.

(** Events of the Resolution Cache: a read, a write or a drop. *)
Definition is_cache_event (ev : Event) : bool :=
  match ev with
  | EvCacheGet _ | EvCachePut _ _ | EvCacheDrop _ => true
  | _ => false
  end.

(** Events of the Candidate Index. *)
Definition is_index_event (ev : Event) : bool :=
  match ev with
  | EvGetIndex _ | EvScan _ | EvInvalidate | EvCandidates _ _ => true
  | _ => false
  end.

(** ** A concrete POSIX world, for the examples

    A fixed file system: the paths in [files] exist and nothing else does.
    [cwd] is the working directory, [None] when it has been removed, in
    which case [os.getcwd()], and so [os.path.abspath] of a relative path,
    raises.  [host] lists what the host import machinery resolves,
    [declined] the names the policy declines, and [snapshot] is what a
    fresh directory walk finds. *)

Definition is_slash (c : ascii) : bool := (c =? "/")%char.

Fixpoint drop_while (f : ascii -> bool) (l : list ascii) : list ascii :=
  match l with
  | [] => []
  | c :: l' => if f c then drop_while f l' else l
  end.

(** [posixpath.dirname] *)
Definition posix_dirname (p : string) : string :=
  let head_rev := drop_while (fun c => negb (is_slash c)) (rev (list_ascii_of_string p)) in
  let stripped := drop_while is_slash head_rev in
  string_of_list_ascii (rev (match stripped with [] => head_rev | _ :: _ => stripped end)).

(** [posixpath.abspath], without the [normpath] step, which leaves the
    paths of the examples as they are. *)
Definition posix_abspath (cwd : option string) (p : string) : result string :=
  if startswith p "/" then Ok p
  else match cwd with
       | Some d => Ok (d ++ "/" ++ p)
       | None => Raise OSError
       end.

Fixpoint assoc {A} (k : string) (l : list (string * A)) : option A :=
  match l with
  | [] => None
  | (k', v) :: l' => if (k =? k')%string then Some v else assoc k l'
  end.

Definition mem (k : string) (l : list string) : bool :=
  existsb (String.eqb k) l.

Definition world_env (cwd : option string) (files declined : list string)
    (host : list (string * ModuleSpec)) (snapshot : Index) : Env :=
  {| env_sep := "/";
     env_normcase := fun p => p;
     env_abspath := posix_abspath cwd;
     env_isabs := fun p => startswith p "/";
     env_dirname := posix_dirname;
     env_exists := fun _ p => Ok (mem p files);
     env_supported := fun name => negb (name =? "")%string;
     env_decide := fun name _ => mkPolicyDecision (negb (mem name declined)) true;
     env_find_spec := fun _ name _ => assoc name host;
     env_verify := fun _ c =>
       if mem (path c) files then (true, Some [1%Z]) else (false, None);
     env_make_spec := fun _ name c => Some (mkModuleSpec name (Some (path c)));
     env_scan := fun _ _ _ _ => snapshot |}.

Definition foo_py : Candidate := mkCandidate kind_module "/proj/foo.py" None.

Definition foo_pkg : Candidate :=
  mkCandidate kind_package "/proj/foo/__init__.py" (Some "/proj/foo").

Definition empty_state : State := mkState ∅ ∅ ∅ 0.

Definition default_policy : Policy := mkPolicy [] true true.

(** A project with [foo.py] only; the host sees nothing. *)
Definition single_world : Env :=
  world_env (Some "/home") ["/proj/foo.py"] [] [] {[ "foo" := [foo_py] ]}.

(** [foo.py] and [foo/__init__.py] side by side. *)
Definition ambiguous_world : Env :=
  world_env (Some "/home") ["/proj/foo.py"; "/proj/foo/__init__.py"] [] []
            {[ "foo" := [foo_py; foo_pkg] ]}.

(** [foo.py] has been deleted: no file, nothing for the walk to find. *)
Definition deleted_world : Env := world_env (Some "/home") [] [] [] ∅.

(** [foo.py] is there and the policy declines [foo]. *)
Definition declined_world : Env :=
  world_env (Some "/home") ["/proj/foo.py"] ["foo"] [] {[ "foo" := [foo_py] ]}.

(** The working directory is gone; the host resolves [foo] from a
    relative location. *)
Definition host_spec : ModuleSpec := mkModuleSpec "foo" (Some "lib/foo.py").

Definition no_cwd_world : Env :=
  world_env None ["/proj/foo.py"] [] [("foo", host_spec)] {[ "foo" := [foo_py] ]}.

(** The state after [foo] was resolved to [foo.py] and cached. *)
Definition cached_state : State :=
  mkState {[ "foo" := mkCached foo_py (Some [1%Z]) ]}
          {[ "foo" := mkObserved foo_py ]} ∅ 0.

(** A cache entry whose fingerprint is older than the file. *)
Definition outdated_state : State :=
  mkState {[ "foo" := mkCached foo_py (Some [0%Z]) ]} ∅ ∅ 0.

(** The index memo still lists [foo.py]; nothing else is recorded. *)
Definition stale_index_state : State :=
  mkState ∅ ∅ {[ ("/proj", ∅, 100%Z) := {[ "foo" := [foo_py] ]} ]} 0.

(** [foo] was observed at [foo.py]; nothing is cached or memoized. *)
Definition observed_state : State :=
  mkState ∅ {[ "foo" := mkObserved foo_py ]} ∅ 0.

(** A [pathlib] world on the same fixed file system: paths are already
    normalized and free of symbolic links, so [resolve] is the identity,
    and [relative_to] is the lexical test. *)
Definition world_paths (files : list string) : OriginsCache.PathEnv :=
  {| OriginsCache.path_str := fun p => p;
     OriginsCache.path_resolve := fun _ p => Ok p;
     OriginsCache.path_is_relative_to := fun p r =>
       (p =? r)%string || startswith p (r ++ "/");
     OriginsCache.path_exists := fun _ p => Ok (mem p files) |}.

(** The ledger after [foo] was last seen at [/proj/foo.py]. *)
Definition foo_ledger : OriginsCache.Ledger :=
  OriginsCache.record "foo" "/proj/foo.py" ∅.

(** ** Vocabulary of the further properties *)

(** The managed roots that [_roots] keeps: line 71 skips the empty ones. *)
Definition nonempty_roots (policy : Policy) (root : string) : list string :=
  filter (fun r => r <> "") (managed_roots policy root).

(** How many events of a run satisfy [f]. *)
Definition count_events (f : Event -> bool) (evs : list Event) : nat :=
  length (List.filter f evs).

Definition is_scan_event (ev : Event) : bool :=
  match ev with EvScan _ => true | _ => false end.

Definition is_invalidate_event (ev : Event) : bool :=
  match ev with EvInvalidate => true | _ => false end.

Definition is_lookup_event (ev : Event) : bool :=
  match ev with EvCandidates _ _ => true | _ => false end.



(** ** Symbolic execution of monadic code *)

Ltac no_match t :=
  lazymatch t with
  | context [match _ with _ => _ end] => fail
  | _ => idtac
  end.

(** Case on the first stuck scrutinee that is not itself a [match]. *)
Ltac mstep :=
  match goal with
  | |- context [match ?x with _ => _ end] => no_match x; destruct x eqn:?
  end.

Ltac munfold :=
  unfold try_except, bind, _norm_abs, lift, os_path_exists, python_find_spec,
    verify_candidate, make_spec, get_candidates, emit, tick, ret, raise,
    cache_get, cache_put, cache_drop, observed_get, observed_put,
    get_index, invalidate_index in *.

Ltac mclean :=
  repeat match goal with
  | H : negb _ = true |- _ => apply negb_true_iff in H
  | H : negb _ = false |- _ => apply negb_false_iff in H
  end; simplify_eq.

Ltac mresolve :=
  unfold resolve, resolve_scan, build_and_cache; munfold.

#[global] Arguments _roots : simpl never.
#[global] Arguments _observe_candidate : simpl never.
#[global] Arguments _observe_python_spec : simpl never.
#[global] Arguments _deleted_paths : simpl never.
#[global] Arguments resolve_scan : simpl never.
#[global] Arguments build_and_cache : simpl never.

(** Split membership in an explicit list into its cases. *)
Ltac mem_cases H :=
  first [ by apply elem_of_nil in H
        | apply elem_of_cons in H as [H|H]; [| mem_cases H] ].

(** * Properties *)

(** ** The order behind [sorted] *)

Lemma ascii_compare_refl (c : ascii) : Ascii.compare c c = Eq.
Proof. unfold Ascii.compare. apply N.compare_refl. Qed.

Lemma ascii_compare_lt_trans (a b c : ascii) :
  Ascii.compare a b = Lt -> Ascii.compare b c = Lt -> Ascii.compare a c = Lt.
Proof.
  unfold Ascii.compare. rewrite !N.compare_lt_iff. apply N.lt_trans.
Qed.

Lemma string_compare_lt_trans (a b c : string) :
  String.compare a b = Lt -> String.compare b c = Lt -> String.compare a c = Lt.
Proof.
  revert b c. induction a as [|x a IH]; intros [|y b] [|z c]; simpl; try congruence.
  destruct (Ascii.compare x y) eqn:Hxy; try congruence;
    destruct (Ascii.compare y z) eqn:Hyz; try congruence; intros Hab Hbc.
  - apply Ascii.compare_eq_iff in Hxy, Hyz. subst.
    rewrite ascii_compare_refl. eauto.
  - apply Ascii.compare_eq_iff in Hxy. subst. by rewrite Hyz.
  - apply Ascii.compare_eq_iff in Hyz. subst. by rewrite Hxy.
  - by rewrite (ascii_compare_lt_trans _ _ _ Hxy Hyz).
Qed.

Lemma str_le_alt (a b : string) :
  str_le a b <-> String.compare a b = Lt \/ a = b.
Proof.
  unfold str_le, String.leb.
  destruct (String.compare a b) eqn:Hc.
  - apply String.compare_eq_iff in Hc. tauto.
  - tauto.
  - split; [congruence|]. intros [? | ->]; [congruence|].
    pose proof (String.compare_antisym b b) as Hbb. rewrite Hc in Hbb.
    discriminate.
Qed.

#[global] Instance str_le_total : Total str_le.
Proof. intros a b. apply String.leb_total. Qed.

#[global] Instance str_le_trans : Transitive str_le.
Proof.
  intros a b c. rewrite !str_le_alt.
  intros [Hab | ->] [Hbc | ->]; eauto using string_compare_lt_trans.
Qed.

#[global] Instance str_le_antisym : AntiSymm (=) str_le.
Proof. intros a b Hab Hba. by apply String.leb_antisym. Qed.

Lemma sorted_Sorted (s : gset string) : StronglySorted str_le (sorted s).
Proof. apply StronglySorted_merge_sort; apply _. Qed.

Lemma sorted_NoDup (s : gset string) : NoDup (sorted s).
Proof.
  unfold sorted. rewrite merge_sort_Permutation. apply NoDup_elements.
Qed.

Lemma elem_of_sorted (s : gset string) (p : string) : p ∈ sorted s <-> p ∈ s.
Proof.
  unfold sorted. rewrite merge_sort_Permutation. apply elem_of_elements.
Qed.

Lemma sorted_nil (s : gset string) : sorted s = [] -> s = ∅.
Proof.
  intros Hs. apply set_eq. intros p. rewrite <- elem_of_sorted, Hs.
  set_solver.
Qed.

(** ** The helpers of resolve.py *)

Section HelperFacts.

Context (E : Env).

Lemma _is_under_any_loop_spec (p : string) (rc : list string) :
  _is_under_any_loop E p rc = true <->
  exists r, r ∈ rc /\ (p = r \/ startswith p (r ++ env_sep E) = true).
Proof.
  induction rc as [|r rc IH]; simpl.
  - split; [discriminate|]. intros (r & Hr & _). by apply elem_of_nil in Hr.
  - destruct (String.eqb_spec p r) as [->|Hne].
    + split; [|done]. intros _. exists r. split; [left|by left].
    + destruct (startswith p (r ++ env_sep E)) eqn:Hpre.
      * split; [|done]. intros _. exists r. split; [left|by right].
      * rewrite IH. split.
        -- intros (r' & Hr' & H). exists r'. split; [by right|done].
        -- intros (r' & Hr' & H). apply elem_of_cons in Hr' as [->|Hr'].
           ++ destruct H; congruence.
           ++ eauto.
Qed.

Lemma _is_under_any_spec (p : string) (rc : list string) :
  _is_under_any E p rc = true <-> exists r, r ∈ rc /\ under_root E p r.
Proof. unfold _is_under_any, under_root. apply _is_under_any_loop_spec. Qed.

(** [_observe_candidate] never raises and touches the Observed Records
    only. *)
Lemma _observe_candidate_run (name : string) (c : Candidate) (rc : list string)
    (st : State) :
  exists obs' evs,
    _observe_candidate E name c rc st
      = mkRun (Ok tt) (mkState (cache st) obs' (index_memo st) (clock st)) evs /\
    (evs = [] \/ evs = [EvObservedPut name c]).
Proof.
  unfold _observe_candidate. munfold. destruct st as [ca ob im cl].
  repeat (cbn; try mstep); eauto.
Qed.

(** One guarded probe: at most one look at the disk, never an exception. *)
Lemma add_if_vanished_guarded (rc : list string) (h : string) (v : gset string)
    (st : State) :
  exists v' n,
    try_except (add_if_vanished E rc h v) (ret v) st
      = mkRun (Ok v')
              (mkState (cache st) (observed st) (index_memo st) (clock st + n)) [] /\
    n <= 1 /\
    (v' = v \/
     exists p, v' = {[p]} ∪ v /\ n = 1 /\ env_abspath E h = Ok p /\
               _is_under_any E p rc = true /\ env_exists E (clock st) p = Ok false).
Proof.
  unfold add_if_vanished. munfold. destruct st as [ca ob im cl].
  repeat (cbn; try mstep); mclean;
    first [ exists v, 0; rewrite Nat.add_0_r; by auto
          | exists v, 1; rewrite Nat.add_1_r; by auto
          | eexists _, 1; rewrite Nat.add_1_r; split; [reflexivity|];
            split; [lia|]; right; eauto 10 ].
Qed.

Lemma _deleted_paths_hints_run (rc hints : list string) (v : gset string)
    (st : State) :
  exists v' n,
    _deleted_paths_hints E rc hints v st
      = mkRun (Ok v')
              (mkState (cache st) (observed st) (index_memo st) (clock st + n)) [] /\
    v ⊆ v' /\
    forall p, p ∈ v' -> p ∈ v \/
      (from_hint E hints p /\ _is_under_any E p rc = true /\
       seen_missing E (clock st) (clock st + n) p).
Proof.
  revert v st. induction hints as [|h hints IH]; intros v st.
  - exists v, 0. cbn. destruct st; cbn. rewrite Nat.add_0_r. auto.
  - cbn [_deleted_paths_hints]. unfold bind at 1.
    destruct (add_if_vanished_guarded rc h v st) as (v1 & n1 & -> & Hn1 & Hv1).
    destruct (IH v1 (mkState (cache st) (observed st) (index_memo st) (clock st + n1)))
      as (v2 & n2 & -> & Hsub & Hv2).
    cbn in *. exists v2, (n1 + n2). rewrite Nat.add_assoc. split; [done|].
    assert (v ⊆ v1) as Hvv1.
    { destruct Hv1 as [Heq|(p & Heq & _)]; rewrite Heq; set_solver. }
    split; [by etrans|].
    intros p Hp. destruct (Hv2 p Hp) as [Hp1 | (Hfrom & Hunder & t & Ht & Hmiss)].
    + destruct Hv1 as [->|(q & -> & -> & Habs & Hund & Hex)]; [by left|].
      apply elem_of_union in Hp1 as [Hq%elem_of_singleton|?]; [subst q|by left].
      right. split; [|split; [done|]].
      * exists h. split; [left|done].
      * exists (clock st). split; [lia|done].
    + right. split; [|split; [done|]].
      * destruct Hfrom as (h' & Hh' & Habs). exists h'. split; [by right|done].
      * exists t. split; [lia|done].
Qed.

(** The second block of [_deleted_paths], lines 139-146. *)
Lemma observed_block_run (name : string) (rc : list string) (v : gset string)
    (st : State) :
  exists v' n,
    try_except
      (obs <- observed_get name ;;
       match obs with
       | Some o => add_if_vanished E rc (path (observed_candidate o)) v
       | None => ret v
       end)
      (ret v) st
      = mkRun (Ok v')
              (mkState (cache st) (observed st) (index_memo st) (clock st + n))
              [EvObservedGet name] /\
    (v' = v \/
     exists p, v' = {[p]} ∪ v /\ n = 1 /\ from_observed E st name p /\
               _is_under_any E p rc = true /\ env_exists E (clock st) p = Ok false).
Proof.
  unfold add_if_vanished, from_observed. munfold. destruct st as [ca ob im cl].
  repeat (cbn; try mstep); mclean;
    first [ exists v, 0; rewrite Nat.add_0_r; by auto
          | exists v, 1; rewrite Nat.add_1_r; by auto
          | eexists _, 1; rewrite Nat.add_1_r; split; [reflexivity|];
            right; eauto 10 ].
Qed.

(** [_deleted_paths] never raises, changes nothing but the clock, and
    returns a sorted duplicate-free list of paths that it saw under a root
    and missing. *)
Lemma _deleted_paths_run (name : string) (rc hints : list string) (st : State) :
  exists l n,
    _deleted_paths E name rc hints st
      = mkRun (Ok l)
              (mkState (cache st) (observed st) (index_memo st) (clock st + n))
              [EvDiagnose name hints; EvObservedGet name] /\
    StronglySorted str_le l /\ NoDup l /\
    forall p, p ∈ l ->
      (from_hint E hints p \/ from_observed E st name p) /\
      _is_under_any E p rc = true /\
      seen_missing E (clock st) (clock st + n) p.
Proof.
  unfold _deleted_paths. unfold bind at 1, emit. unfold bind at 1.
  destruct (_deleted_paths_hints_run rc hints ∅ st) as (v1 & n1 & -> & _ & Hv1).
  unfold bind at 1.
  destruct (observed_block_run name rc v1
    (mkState (cache st) (observed st) (index_memo st) (clock st + n1)))
    as (v2 & n2 & -> & Hv2).
  cbn. exists (sorted v2), (n1 + n2). rewrite Nat.add_assoc. split; [done|].
  split; [apply sorted_Sorted|]. split; [apply sorted_NoDup|].
  intros p Hp%elem_of_sorted.
  assert (p ∈ v1 \/ (n2 = 1 /\ from_observed E st name p /\
           _is_under_any E p rc = true /\
           env_exists E (clock st + n1) p = Ok false)) as [Hp1|(-> & Hobs & Hund & Hex)].
  { destruct Hv2 as [Heq|(q & Heq & Hn2 & Hobs & Hund & Hex)]; subst v2; [by left|].
    apply elem_of_union in Hp as [Hq%elem_of_singleton|?]; [subst q|by left].
    right. done. }
  - destruct (Hv1 p Hp1) as [?|(? & ? & t & Ht & ?)]; [set_solver|].
    split; [by left|]. split; [done|]. exists t. split; [lia|done].
  - split; [by right|]. split; [done|].
    exists (clock st + n1). split; [lia|done].
Qed.

End HelperFacts.

(** ** Root normalization and host observation *)

Section ResolveFacts.

Context (E : Env).

Lemma _roots_loop_pure (rs ar cr : list string) :
  exists v, forall st, _roots_loop E rs ar cr st = mkRun v st [].
Proof.
  revert ar cr. induction rs as [|r rs IH]; intros ar cr; cbn.
  - by eexists.
  - destruct (r =? "")%string; [apply IH|]. munfold.
    destruct (env_abspath E r) as [a|e]; cbn.
    + destruct (IH (ar ++ [a])%list (cr ++ [env_normcase E a])%list) as [v Hv].
      exists v. intros st. rewrite Hv. by destruct v.
    + by eexists.
Qed.

Lemma _roots_pure (policy : Policy) (root : string) :
  exists v, forall st, _roots E policy root st = mkRun v st [].
Proof. apply _roots_loop_pure. Qed.

Lemma _roots_value (policy : Policy) (root : string) (st : State) v :
  value (_roots E policy root st) = v ->
  forall st', _roots E policy root st' = mkRun v st' [].
Proof.
  destruct (_roots_pure policy root) as [v' Hv']. rewrite Hv'. cbn.
  by intros <-.
Qed.

Lemma _roots_loop_members (rs ar cr ar' cr' : list string) (st : State) :
  value (_roots_loop E rs ar cr st) = Ok (ar', cr') ->
  forall c, c ∈ cr' ->
    c ∈ cr \/
    exists r a, r ∈ rs /\ r <> "" /\ env_abspath E r = Ok a /\ c = env_normcase E a.
Proof.
  revert ar cr. induction rs as [|r rs IH]; intros ar cr; cbn.
  - intros [= <- <-] c Hc. by left.
  - destruct (String.eqb_spec r "") as [->|Hne].
    + intros Hv c Hc. destruct (IH _ _ Hv c Hc) as [?|(r' & a & ? & ? & ? & ?)];
        [by left|]. right. exists r', a. split; [by right|done].
    + munfold. destruct (env_abspath E r) as [a|e] eqn:Habs; cbn; [|done].
      destruct (_roots_loop E rs _ _ st) as [v st' ev] eqn:Hrun. cbn.
      intros ->. intros c Hc.
      assert (value (_roots_loop E rs (ar ++ [a])%list (cr ++ [env_normcase E a])%list st)
              = Ok (ar', cr')) as Hv by (by rewrite Hrun).
      destruct (IH _ _ Hv c Hc) as [Hin|(r' & a' & ? & ? & ? & ?)].
      * apply elem_of_app in Hin as [?|Hin]; [by left|].
        apply list_elem_of_singleton in Hin as ->.
        right. exists r, a. split; [left|done].
      * right. exists r', a'. split; [by right|done].
Qed.

(** Every comparison root is the normalized form of a non-empty managed
    root. *)
Lemma _roots_members (policy : Policy) (root : string) (st : State) ar rc :
  value (_roots E policy root st) = Ok (ar, rc) ->
  forall c, c ∈ rc ->
    exists r a, r ∈ managed_roots policy root /\ r <> "" /\
                env_abspath E r = Ok a /\ c = env_normcase E a.
Proof.
  intros Hv c Hc. destruct (_roots_loop_members _ _ _ _ _ _ Hv c Hc) as [Hin|?];
    [by apply elem_of_nil in Hin|done].
Qed.

(** [_observe_python_spec] has no handler: what [_norm_abs] raises goes
    through.  It touches the Observed Records only. *)
Lemma _observe_python_spec_run (name : string) (s : ModuleSpec) (rc : list string)
    (st : State) :
  exists v obs' evs,
    _observe_python_spec E name s rc st
      = mkRun v (mkState (cache st) obs' (index_memo st) (clock st)) evs /\
    (evs = [] \/ exists c, evs = [EvObservedPut name c]).
Proof.
  unfold _observe_python_spec. munfold. destruct st as [ca ob im cl].
  repeat (cbn; try mstep); eauto 10.
Qed.

End ResolveFacts.

(** Replace a call of a helper on a known state by what its run lemma
    says about it. *)
Ltac mhelper :=
  match goal with
  | |- context [_roots ?E ?p ?r ?st] =>
      let v := fresh "rv" in
      let H := fresh in
      destruct (_roots_pure E p r) as [v H]; rewrite !H
  | |- context [_observe_python_spec ?E ?n ?s ?rc ?st] =>
      let H := fresh in
      let Hev := fresh in
      destruct (_observe_python_spec_run E n s rc st) as (? & ? & ? & H & Hev);
      rewrite H; clear H; destruct Hev as [->|(? & ->)]
  | |- context [_observe_candidate ?E ?n ?c ?rc ?st] =>
      let H := fresh in
      let Hev := fresh in
      destruct (_observe_candidate_run E n c rc st) as (? & ? & H & Hev);
      rewrite H; clear H; destruct Hev as [->| ->]
  | |- context [_deleted_paths ?E ?n ?rc ?h ?st] =>
      let H := fresh in
      let Hs := fresh "Hsorted" in
      let Hn := fresh "Hnodup" in
      let Hp := fresh "Hpaths" in
      destruct (_deleted_paths_run E n rc h st) as (? & ? & H & Hs & Hn & Hp);
      rewrite H; clear H
  end.

Ltac mrun := repeat (cbn; first [rewrite lookup_empty | mhelper | mstep]).

(** Use an equation of the context whose left-hand side occurs in the
    goal. *)
Ltac mrewrite :=
  match goal with
  | H : ?x = _ |- context [?x] =>
      tryif is_var x then fail else rewrite H
  | H : forall st, _roots ?E ?p ?r st = _ |- context [_roots ?E ?p ?r _] =>
      rewrite !H
  end.

Ltac mdecide :=
  match goal with
  | |- context [bool_decide ?P] =>
      first [ rewrite (bool_decide_true P) by done
            | rewrite (bool_decide_false P) by done ]
  end.

Ltac mrun_hyps :=
  repeat (cbn; first [rewrite lookup_empty | mrewrite | mdecide | mhelper | mstep]).

(** ** The resolution orchestrator *)

Section Orchestrator.

Context (E : Env).

Lemma seen_missing_mono (t0 t1 t0' t1' : nat) (p : string) :
  t0' <= t0 -> t1 <= t1' -> seen_missing E t0 t1 p -> seen_missing E t0' t1' p.
Proof. intros ?? (t & ? & ?). exists t. split; [lia|done]. Qed.

(** From the scan on, nothing raises. *)
Lemma resolve_scan_returns (fullname root : string) (policy : Policy)
    (exclude_dirs : gset string) (max_files : Z) (is_managed : bool)
    (roots_cmp missing_hints : list string) (st : State) :
  exists out,
    value (resolve_scan E fullname root policy exclude_dirs max_files
                        is_managed roots_cmp missing_hints st) = Ok out.
Proof.
  destruct policy as [rts ce rod]. destruct st as [ca ob im cl].
  unfold resolve_scan, build_and_cache. munfold. mrun.
  all: cbn; eauto.
Qed.

(** Where an exception of [resolve] can come from: the normalization of
    the roots, or the observation of what the host resolved.  Nothing
    else in [resolve] raises. *)
Lemma raise_sources (fullname root : string) (policy : Policy)
    (exclude_dirs : gset string) (max_files : Z)
    (search_path : option (list string)) (st : State) (e : exn) :
  value (resolve E fullname root policy exclude_dirs max_files search_path st)
    = Raise e ->
  value (_roots E policy root st) = Raise e \/
  exists abs_roots roots_cmp s st1,
    value (_roots E policy root st) = Ok (abs_roots, roots_cmp) /\
    env_find_spec E (clock st) fullname search_path = Some s /\
    value (_observe_python_spec E fullname s roots_cmp st1) = Raise e.
Proof.
  destruct st as [ca ob im cl].
  unfold resolve. munfold.
  destruct (_roots_pure E policy root) as [rv Hrv]. rewrite !Hrv.
  repeat (cbn; first
    [ match goal with
      | H : forall st, _roots ?E ?p ?r st = _ |- context [_roots ?E ?p ?r _] =>
          rewrite !H
      | |- context [_observe_python_spec ?E ?n ?s ?rc ?st] =>
          destruct (_observe_python_spec E n s rc st) as [[[]|?] ? ?] eqn:?
      | |- context [_observe_candidate ?E ?n ?c ?rc ?st] =>
          let H := fresh in
          destruct (_observe_candidate_run E n c rc st) as (? & ? & H & _);
          rewrite H; clear H
      | |- context [resolve_scan ?E ?n ?r ?p ?x ?m ?g ?rc ?h ?st] =>
          let H := fresh in
          destruct (resolve_scan_returns n r p x m g rc h st) as [? H];
          destruct (resolve_scan E n r p x m g rc h st); cbn in H; subst
      end
    | mstep ]).
  all: cbn; intros Hv; simplify_eq.
  all: first
    [ by left
    | right; eexists _, _, _, _; split; [reflexivity|]; split; [done|];
      match goal with
      | H : _observe_python_spec _ _ _ _ _ = _ |- _ => by rewrite H
      end ].
Qed.

(** The host goes first: when it resolves the name, [resolve] never
    answers [Resolved] or [Deleted], and answers [UNHANDLED] as soon as
    the roots normalize and the observation of the host result returns. *)
Lemma host_first (fullname root : string) (policy : Policy)
    (exclude_dirs : gset string) (max_files : Z)
    (search_path : option (list string)) (st : State) (s : ModuleSpec) :
  env_find_spec E (clock st) fullname search_path = Some s ->
  (forall out,
     value (resolve E fullname root policy exclude_dirs max_files search_path st)
       = Ok out -> out = UNHANDLED) /\
  (forall abs_roots roots_cmp,
     value (_roots E policy root st) = Ok (abs_roots, roots_cmp) ->
     value (_observe_python_spec E fullname s roots_cmp
              (mkState (cache st) (observed st) (index_memo st) (S (clock st))))
       = Ok tt ->
     value (resolve E fullname root policy exclude_dirs max_files search_path st)
       = Ok UNHANDLED).
Proof.
  intros Hfs. destruct st as [ca ob im cl]. cbn in Hfs. split.
  - intros out. unfold resolve. munfold. mrun_hyps. all: cbn; congruence.
  - intros ar rc Hr Hobs. pose proof (_roots_value E _ _ _ _ Hr) as Hroots.
    unfold resolve. munfold. cbn in Hobs.
    repeat (cbn; first [mrewrite | mstep]); try reflexivity.
    all: cbn in *; congruence.
Qed.

(** The retry, when the rescan finds nothing: the diagnosis is asked
    about the hints as they were before the scan; the path of the
    candidate that failed verification is not among them unless it
    already was. *)
Lemma retry_empty_keeps_hints (fullname root : string) (policy : Policy)
    (exclude_dirs : gset string) (max_files : Z) (is_managed : bool)
    (roots_cmp missing_hints : list string) (st : State)
    (idx : Index) (picked : Candidate) (fp1 : option Fingerprint) :
  raise_on_deleted policy = true ->
  index_memo st !! (root, exclude_dirs, max_files) = Some idx ->
  default [] (idx !! fullname) = [picked] ->
  env_verify E (clock st) picked = (false, fp1) ->
  default [] (env_scan E (S (clock st)) root exclude_dirs max_files !! fullname) = [] ->
  events (resolve_scan E fullname root policy exclude_dirs max_files is_managed
                       roots_cmp missing_hints st)
    = [EvGetIndex root; EvCandidates fullname [picked]; EvInvalidate;
       EvGetIndex root; EvScan root; EvCandidates fullname [];
       EvDiagnose fullname missing_hints; EvObservedGet fullname].
Proof.
  intros Hrod Hmemo Hone Hv Hnone.
  destruct policy as [rts ce rod]. cbn in Hrod. subst rod.
  destruct st as [ca ob im cl]. cbn in Hmemo, Hv, Hnone.
  unfold resolve_scan, build_and_cache. munfold. mrun_hyps.
  all: try reflexivity; cbn in *; congruence.
Qed.

(** Two or more candidates in the memoized index: the scan stops at the
    lookup, with no effect on the state. *)
Lemma ambiguous_first_scan (fullname root : string) (policy : Policy)
    (exclude_dirs : gset string) (max_files : Z) (is_managed : bool)
    (roots_cmp missing_hints : list string) (st : State)
    (idx : Index) (c1 c2 : Candidate) (rest : list Candidate) :
  index_memo st !! (root, exclude_dirs, max_files) = Some idx ->
  default [] (idx !! fullname) = c1 :: c2 :: rest ->
  resolve_scan E fullname root policy exclude_dirs max_files is_managed
               roots_cmp missing_hints st
    = mkRun (Ok UNHANDLED) st
            [EvGetIndex root; EvCandidates fullname (c1 :: c2 :: rest)].
Proof.
  intros Hmemo Hcands. destruct st as [ca ob im cl]. cbn in Hmemo.
  unfold resolve_scan. munfold. mrun_hyps. reflexivity.
Qed.

(** C2. Ambiguity safety: whenever the candidate index answers a lookup
    of the name with two or more candidates, at the first scan or at the
    rescan of the one retry, [resolve] returns [UNHANDLED]. *)
Theorem ambiguity_safety (fullname root : string) (policy : Policy)
    (exclude_dirs : gset string) (max_files : Z)
    (search_path : option (list string)) (st : State) (cands : list Candidate) :
  EvCandidates fullname cands
    ∈ events (resolve E fullname root policy exclude_dirs max_files search_path st) ->
  2 <= length cands ->
  value (resolve E fullname root policy exclude_dirs max_files search_path st)
    = Ok UNHANDLED.
Proof.
  destruct policy as [rts ce rod]. destruct st as [ca ob im cl].
  mresolve. mrun.
  all: cbn; intros Hin Hlen; try reflexivity; exfalso.
  all: mem_cases Hin; simplify_eq; cbn in Hlen; lia.
Qed.

(** C3, as amended.  Cache hit: when the name is supported, the policy
    elects to handle it, the roots normalize, the host cannot resolve the
    name, caching is enabled, the cache holds [(C, fp)] for the name, the
    verifier reports [C] valid with that fingerprint and the builder
    succeeds on [C], then [resolve] returns [Resolved] with candidate [C],
    without a lookup in the candidate index, a directory scan, or an
    invalidation. *)
Theorem cache_hit (fullname root : string) (policy : Policy)
    (exclude_dirs : gset string) (max_files : Z)
    (search_path : option (list string)) (st : State)
    (abs_roots roots_cmp : list string) (c : Cached) (f : Fingerprint)
    (spec : ModuleSpec) :
  env_supported E fullname = true ->
  handle (env_decide E fullname policy) = true ->
  value (_roots E policy root st) = Ok (abs_roots, roots_cmp) ->
  cache_enabled policy = true ->
  env_find_spec E (clock st) fullname search_path = None ->
  cache st !! fullname = Some c ->
  fp c = Some f ->
  env_verify E (S (clock st)) (cached_candidate c) = (true, Some f) ->
  env_make_spec E (S (S (clock st))) fullname (cached_candidate c) = Some spec ->
  value (resolve E fullname root policy exclude_dirs max_files search_path st)
    = Ok (Resolved fullname (cached_candidate c) spec
                   (managed (env_decide E fullname policy))) /\
  Forall (fun ev => is_index_event ev = false)
    (events (resolve E fullname root policy exclude_dirs max_files search_path st)) /\
  index_memo (final (resolve E fullname root policy exclude_dirs max_files
                             search_path st)) = index_memo st.
Proof.
  intros Hsup Hh Hr Hce Hfs Hc Hfp Hv Hms.
  pose proof (_roots_value E _ _ _ _ Hr) as Hroots. clear Hr.
  destruct st as [ca ob im cl]. cbn in Hfs, Hc, Hv, Hms.
  unfold resolve. munfold. unfold cache_fresh. mrun_hyps.

  all: cbn; split; [reflexivity|]; split; [|reflexivity].
  all: repeat first [exact I | apply Forall_nil | apply Forall_cons; split; [reflexivity|]].
Qed.

(** C4. [Deleted] is gated by [raise_on_deleted]: with the flag off,
    [resolve] never returns [Deleted]; what it returns is [Resolved] or
    [UNHANDLED], and every call that returns [Deleted] under a policy that
    differs only in having the flag on returns [UNHANDLED] instead. *)
Theorem deleted_is_gated (fullname root : string) (policy : Policy)
    (exclude_dirs : gset string) (max_files : Z)
    (search_path : option (list string)) (st : State) :
  raise_on_deleted policy = false ->
  (forall n l m,
     value (resolve E fullname root policy exclude_dirs max_files search_path st)
       <> Ok (Deleted n l m)) /\
  (forall out,
     value (resolve E fullname root policy exclude_dirs max_files search_path st)
       = Ok out ->
     out = UNHANDLED \/ exists n c s m, out = Resolved n c s m) /\
  (forall policy1 n l m,
     roots policy1 = roots policy ->
     cache_enabled policy1 = cache_enabled policy ->
     env_decide E fullname policy1 = env_decide E fullname policy ->
     value (resolve E fullname root policy1 exclude_dirs max_files search_path st)
       = Ok (Deleted n l m) ->
     value (resolve E fullname root policy exclude_dirs max_files search_path st)
       = Ok UNHANDLED).
Proof.
  intros Hrod. destruct policy as [rts ce rod]. cbn in Hrod. subst rod.
  destruct st as [ca ob im cl]. split; [|split].
  - intros n l m. mresolve. mrun. all: cbn; congruence.
  - intros out. mresolve. mrun. all: cbn; intros; simplify_eq; eauto 10.
  - intros [rts1 ce1 rod1] n l m. cbn. intros -> -> Hd. revert Hd.
    change (_roots E (mkPolicy rts ce rod1) root)
      with (_roots E (mkPolicy rts ce false) root).
    mresolve.
    change (_roots E (mkPolicy rts ce rod1) root)
      with (_roots E (mkPolicy rts ce false) root).
    intros ->. mrun. all: cbn; intros; simplify_eq; eauto.
Qed.

(** C6. Cache gating frame property: when [policy.cache_enabled] is false,
    [resolve] performs no read, write or drop of the Resolution Cache, and
    the cache after the call is the cache before it, whatever the call
    returns or raises. *)
Theorem cache_disabled_frame (fullname root : string) (policy : Policy)
    (exclude_dirs : gset string) (max_files : Z)
    (search_path : option (list string)) (st : State) :
  cache_enabled policy = false ->
  cache (final (resolve E fullname root policy exclude_dirs max_files search_path st))
    = cache st /\
  Forall (fun ev => is_cache_event ev = false)
    (events (resolve E fullname root policy exclude_dirs max_files search_path st)).
Proof.
  intros Hce. destruct policy as [rts ce rod]. cbn in Hce. subst ce.
  destruct st as [ca ob im cl]. mresolve. mrun.
  all: cbn; split; [reflexivity|].
  all: repeat first [exact I | apply Forall_nil | apply Forall_cons; split; [reflexivity|]].
Qed.

(** C5. Payload of [Deleted]: whenever [resolve] returns [Deleted], its
    [last_known_paths] is a non-empty, sorted, duplicate-free list; each
    path in it is absolute, lies under one of the policy's managed roots
    (the invocation root when the policy lists none), and was seen missing
    from the disk during the call.  [os.path.abspath] is taken to return
    absolute paths. *)
Theorem deleted_payload (fullname root : string) (policy : Policy)
    (exclude_dirs : gset string) (max_files : Z)
    (search_path : option (list string)) (st : State)
    (n : string) (l : list string) (m : bool) :
  (forall p q, env_abspath E p = Ok q -> env_isabs E q = true) ->
  value (resolve E fullname root policy exclude_dirs max_files search_path st)
    = Ok (Deleted n l m) ->
  l <> [] /\ StronglySorted str_le l /\ NoDup l /\
  forall p, p ∈ l ->
    env_isabs E p = true /\
    (exists r a, r ∈ managed_roots policy root /\ r <> "" /\
                 env_abspath E r = Ok a /\ under_root E p (env_normcase E a)) /\
    seen_missing E (clock st)
      (clock (final (resolve E fullname root policy exclude_dirs max_files
                             search_path st))) p.
Proof.
  intros Habs. destruct policy as [rts ce rod]. destruct st as [ca ob im cl].
  mresolve. mrun.
  all: cbn; intros Hv; simplify_eq.
  all: split; [done|]; split; [done|]; split; [done|].
  all: intros p Hp.
  all: match goal with
       | Hpaths : forall p, p ∈ _ -> _ |- _ =>
           destruct (Hpaths p Hp) as (Hsrc & Hunder & Hmiss)
       end.
  all: split; [|split].
  all: try (destruct Hsrc as [(hh & _ & Hh)|(oo & _ & Ho)]; by eapply Habs).
  all: try (cbn in Hmiss; eapply seen_missing_mono; [| |exact Hmiss]; cbn; lia).
  all: apply _is_under_any_spec in Hunder as (rcmp & Hc & Hpc).
  all: match goal with
       | H : forall st, _roots E ?pol ?rt st = _ |- _ =>
           destruct (_roots_members E pol rt (mkState ∅ ∅ ∅ 0) _ _
                       ltac:(rewrite H; reflexivity) rcmp Hc)
             as (r & a & Hr & Hne & Ha & ->)
       end.
  all: exists r; exists a; done.
Qed.

(** C10. A fingerprint-less or mismatching verification is stale: on a
    cache lookup, when the verifier reports the cached candidate valid but
    with no fingerprint, or one that differs from the stored one, the
    cached result is not served; the entry is dropped, its path becomes a
    missing hint exactly when [os.path.exists] says it is gone, and
    [resolve] is the index scan run from there. *)
Theorem stale_cache_entry (fullname root : string) (policy : Policy)
    (exclude_dirs : gset string) (max_files : Z)
    (search_path : option (list string)) (st : State)
    (abs_roots roots_cmp : list string) (c : Cached) (fp1 : option Fingerprint) :
  env_supported E fullname = true ->
  handle (env_decide E fullname policy) = true ->
  value (_roots E policy root st) = Ok (abs_roots, roots_cmp) ->
  env_find_spec E (clock st) fullname search_path = None ->
  cache_enabled policy = true ->
  cache st !! fullname = Some c ->
  env_verify E (S (clock st)) (cached_candidate c) = (true, fp1) ->
  fp1 = None \/ fp1 <> fp c ->
  let missing_hints :=
    match env_exists E (S (S (clock st))) (path (cached_candidate c)) with
    | Ok false => [path (cached_candidate c)]
    | _ => []
    end in
  let dropped :=
    mkState (delete fullname (cache st)) (observed st) (index_memo st)
            (S (S (S (clock st)))) in
  let scan :=
    resolve_scan E fullname root policy exclude_dirs max_files
                 (managed (env_decide E fullname policy)) roots_cmp
                 missing_hints dropped in
  resolve E fullname root policy exclude_dirs max_files search_path st
    = mkRun (value scan) (final scan)
            ([EvCacheGet fullname; EvCacheDrop fullname] ++ events scan)%list.
Proof.
  intros Hsup Hh Hr Hfs Hce Hc Hv Hfp.
  pose proof (_roots_value E _ _ _ _ Hr) as Hroots. clear Hr.
  destruct st as [ca ob im cl]. cbn in Hfs, Hc, Hv.
  unfold resolve. munfold. unfold cache_fresh.
  destruct Hfp as [->|Hne]; [|destruct fp1 as [f|]].
  all: mrun_hyps.
  all: try reflexivity; cbn in *; congruence.
Qed.

End Orchestrator.

(** ** The claims on concrete worlds *)

#[local] Arguments ascii_dec : simpl never.

Lemma world_abspath_absolute (cwd : string) files declined host snapshot p q :
  startswith cwd "/" = true ->
  env_abspath (world_env (Some cwd) files declined host snapshot) p = Ok q ->
  env_isabs (world_env (Some cwd) files declined host snapshot) q = true.
Proof.
  cbn. unfold posix_abspath. intros Hcwd.
  destruct (startswith p "/") eqn:Hp; intros [= <-]; [done|].
  destruct cwd as [|c cwd]; [done|]. unfold startswith in *. cbn in *.
  destruct (ascii_dec "/" c) as [<-|]; [|done].
  change (String.prefix "" (cwd +:+ "/" +:+ p) = true).
  by destruct (cwd +:+ "/" +:+ p).
Qed.

(** C1. Fail-open does not hold when the observation of the host result
    raises: the host resolves [foo], and [resolve] propagates the
    exception of [os.path.abspath] instead of returning [UNHANDLED]. *)
Example fail_open_exception :
  env_find_spec no_cwd_world 0 "foo" None = Some host_spec /\
  value (resolve no_cwd_world "foo" "/proj" default_policy ∅ 100 None empty_state)
    = Raise OSError.
Proof. split; reflexivity. Qed.

Lemma ambiguity_safety_witness :
  EvCandidates "foo" [foo_py; foo_pkg]
    ∈ events (resolve ambiguous_world "foo" "/proj" default_policy ∅ 100 None
                      empty_state) /\
  2 <= length [foo_py; foo_pkg] /\
  value (resolve ambiguous_world "foo" "/proj" default_policy ∅ 100 None empty_state)
    = Ok UNHANDLED.
Proof.
  assert (EvCandidates "foo" [foo_py; foo_pkg]
    ∈ events (resolve ambiguous_world "foo" "/proj" default_policy ∅ 100 None
                      empty_state)) as H1 by (vm_compute; repeat constructor).
  assert (2 <= length [foo_py; foo_pkg]) as H2 by (simpl; lia).
  exact (conj H1 (conj H2
    (ambiguity_safety ambiguous_world "foo" "/proj" default_policy ∅ 100 None
                      empty_state [foo_py; foo_pkg] H1 H2))).
Defined.

(** C3, as stated, fails: every premise holds, at every time, and
    [resolve] returns [UNHANDLED], because the policy passed to this call
    declines the name; the cache entry dates from an earlier call. *)
Lemma cache_hit_needs_policy :
  ~ (forall (E : Env) (fullname root : string) (policy : Policy)
       (exclude_dirs : gset string) (max_files : Z)
       (search_path : option (list string)) (st : State)
       (c : Candidate) (f : Fingerprint) (spec : ModuleSpec),
       cache_enabled policy = true ->
       (forall t, env_find_spec E t fullname search_path = None) ->
       cache st !! fullname = Some (mkCached c (Some f)) ->
       (forall t, env_verify E t c = (true, Some f)) ->
       (forall t, env_make_spec E t fullname c = Some spec) ->
       exists m,
         value (resolve E fullname root policy exclude_dirs max_files search_path st)
           = Ok (Resolved fullname c spec m)).
Proof.
  intros H.
  destruct (H declined_world "foo" "/proj" default_policy ∅ 100%Z None cached_state
              foo_py [1%Z] (mkModuleSpec "foo" (Some "/proj/foo.py")))
    as [m Hm]; try done.
Qed.

Lemma cache_hit_witness :
  value (resolve single_world "foo" "/proj" default_policy ∅ 100 None cached_state)
    = Ok (Resolved "foo" foo_py (mkModuleSpec "foo" (Some "/proj/foo.py")) true) /\
  Forall (fun ev => is_index_event ev = false)
    (events (resolve single_world "foo" "/proj" default_policy ∅ 100 None
                     cached_state)) /\
  index_memo (final (resolve single_world "foo" "/proj" default_policy ∅ 100 None
                             cached_state)) = index_memo cached_state.
Proof.
  apply (cache_hit single_world "foo" "/proj" default_policy ∅ 100 None cached_state
           ["/proj"] ["/proj"] (mkCached foo_py (Some [1%Z])) [1%Z]
           (mkModuleSpec "foo" (Some "/proj/foo.py"))); reflexivity.
Defined.

Lemma deleted_is_gated_witness :
  raise_on_deleted (mkPolicy [] true false) = false /\
  value (resolve deleted_world "foo" "/proj" default_policy ∅ 100 None cached_state)
    = Ok (Deleted "foo" ["/proj/foo.py"] true) /\
  value (resolve deleted_world "foo" "/proj" (mkPolicy [] true false) ∅ 100 None
                 cached_state) = Ok UNHANDLED.
Proof.
  assert (raise_on_deleted (mkPolicy [] true false) = false) as H1 by reflexivity.
  split; [exact H1|]. split; [reflexivity|].
  apply (proj2 (proj2 (deleted_is_gated deleted_world "foo" "/proj"
           (mkPolicy [] true false) ∅ 100 None cached_state H1))
         default_policy "foo" ["/proj/foo.py"] true); reflexivity.
Defined.

Lemma deleted_payload_witness :
  value (resolve deleted_world "foo" "/proj" default_policy ∅ 100 None cached_state)
    = Ok (Deleted "foo" ["/proj/foo.py"] true) /\
  ["/proj/foo.py"] <> [] /\ StronglySorted str_le ["/proj/foo.py"] /\
  NoDup ["/proj/foo.py"] /\
  forall p, p ∈ ["/proj/foo.py"] ->
    env_isabs deleted_world p = true /\
    (exists r a, r ∈ managed_roots default_policy "/proj" /\ r <> "" /\
                 env_abspath deleted_world r = Ok a /\
                 under_root deleted_world p (env_normcase deleted_world a)) /\
    seen_missing deleted_world (clock cached_state)
      (clock (final (resolve deleted_world "foo" "/proj" default_policy ∅ 100 None
                             cached_state))) p.
Proof.
  assert (value (resolve deleted_world "foo" "/proj" default_policy ∅ 100 None
                         cached_state)
          = Ok (Deleted "foo" ["/proj/foo.py"] true)) as H2 by reflexivity.
  split; [exact H2|].
  apply (deleted_payload deleted_world "foo" "/proj" default_policy ∅ 100 None
           cached_state "foo" ["/proj/foo.py"] true); [|exact H2].
  intros p q. by apply world_abspath_absolute.
Defined.

Lemma cache_disabled_frame_witness :
  cache (final (resolve single_world "foo" "/proj" (mkPolicy [] false true) ∅ 100
                        None cached_state)) = cache cached_state /\
  Forall (fun ev => is_cache_event ev = false)
    (events (resolve single_world "foo" "/proj" (mkPolicy [] false true) ∅ 100
                     None cached_state)).
Proof.
  apply (cache_disabled_frame single_world "foo" "/proj" (mkPolicy [] false true)
           ∅ 100 None cached_state); reflexivity.
Defined.

(** C7. The retry does not expand the hints when the rescan finds
    nothing: the memoized index lists [foo.py], verification fails
    because the file is gone, the rescan is empty, and the diagnosis is
    asked about no hint at all, so [resolve] returns [UNHANDLED]; asked
    about the first candidate's path, the same diagnosis reports it. *)
Example retry_forgets_first_candidate :
  let run := resolve deleted_world "foo" "/proj" default_policy ∅ 100 None
                     stale_index_state in
  value run = Ok UNHANDLED /\
  events run
    = [EvCacheGet "foo"; EvGetIndex "/proj"; EvCandidates "foo" [foo_py];
       EvInvalidate; EvGetIndex "/proj"; EvScan "/proj"; EvCandidates "foo" [];
       EvDiagnose "foo" []; EvObservedGet "foo"] /\
  value (_deleted_paths deleted_world "foo" ["/proj"] [path foo_py] (final run))
    = Ok ["/proj/foo.py"].
Proof. repeat split; reflexivity. Qed.

(** C8. An exception gets out of [resolve]: with the working directory
    gone, [_observe_candidate] swallows what [os.path.abspath] raises on a
    relative path, [_observe_python_spec] does not, and [resolve]
    propagates it. *)
Example host_observation_raises :
  value (_observe_candidate no_cwd_world "foo"
           (mkCandidate kind_module "lib/foo.py" None) ["/proj"] empty_state)
    = Ok tt /\
  value (_observe_python_spec no_cwd_world "foo" host_spec ["/proj"] empty_state)
    = Raise OSError /\
  value (resolve no_cwd_world "foo" "/proj" default_policy ∅ 100 None empty_state)
    = Raise OSError.
Proof. repeat split; reflexivity. Qed.

Lemma stale_cache_entry_witness :
  env_verify single_world 1 foo_py = (true, Some [1%Z]) /\
  cache outdated_state !! "foo" = Some (mkCached foo_py (Some [0%Z])) /\
  resolve single_world "foo" "/proj" default_policy ∅ 100 None outdated_state
    = let scan := resolve_scan single_world "foo" "/proj" default_policy ∅ 100 true
                    ["/proj"] []
                    (mkState (delete "foo" (cache outdated_state)) ∅ ∅ 3) in
      mkRun (value scan) (final scan)
            ([EvCacheGet "foo"; EvCacheDrop "foo"] ++ events scan)%list.
Proof.
  split; [reflexivity|]. split; [reflexivity|].
  apply (stale_cache_entry single_world "foo" "/proj" default_policy ∅ 100 None
           outdated_state ["/proj"] ["/proj"] (mkCached foo_py (Some [0%Z]))
           (Some [1%Z])); try reflexivity.
  right. discriminate.
Defined.

(** ** The Origin Ledger *)

Section LedgerFacts.

Import OriginsCache.

Context (P : PathEnv).

Lemma under_root_and_gone_path (p rp s : string) (t t' : nat) :
  under_root_and_gone P p rp t = (Ok (Some s), t') -> s = p.
Proof.
  unfold under_root_and_gone. repeat case_match; congruence.
Qed.

Lemma vanished_loop_returns (p : string) (roots : list string) (t : nat) :
  exists v t', vanished_loop P p roots t = (Ok v, t').
Proof.
  revert t. induction roots as [|r roots IH]; intros t; cbn; [by eauto|].
  destruct (under_root_and_gone P p (path_str P r) t) as [[[s|]|e] t1]; eauto.
Qed.

Lemma vanished_loop_finds (p r p_abs r_abs : string) (roots : list string) (t : nat) :
  r ∈ roots ->
  (forall t, path_resolve P t p = Ok p_abs) ->
  (forall t, path_resolve P t (path_str P r) = Ok r_abs) ->
  path_is_relative_to P p_abs r_abs = true ->
  (forall t, path_exists P t p = Ok false) ->
  (vanished_loop P p roots t).1 = Ok (Some p).
Proof.
  intros Hr Hp Hrp Hrel Hgone. revert t.
  induction roots as [|r0 roots IH]; intros t; [by apply elem_of_nil in Hr|].
  cbn. destruct (under_root_and_gone P p (path_str P r0) t) as [[[s|]|e] t1] eqn:Hbody.
  - by rewrite (under_root_and_gone_path _ _ _ _ _ Hbody).
  - apply elem_of_cons in Hr as [<-|Hr]; [|by apply IH].
    exfalso. revert Hbody. unfold under_root_and_gone.
    rewrite Hp, Hrp, Hrel, Hgone. cbn. congruence.
  - apply elem_of_cons in Hr as [<-|Hr]; [|by apply IH].
    exfalso. revert Hbody. unfold under_root_and_gone.
    rewrite Hp, Hrp, Hrel, Hgone. cbn. congruence.
Qed.

(** C9. [vanished_under_roots] is robust: for every ledger, name and list
    of roots it returns without raising; and if the path last recorded
    for the name resolves under one of the given roots and does not exist,
    it returns that path, whether or not the root directory itself still
    exists and whatever goes wrong for the other roots. *)
Theorem vanished_under_roots_robust (_LAST : Ledger) (name : string)
    (roots : list string) (t : nat) :
  (exists v t', vanished_under_roots P _LAST name roots t = (Ok v, t')) /\
  (forall o r p_abs r_abs,
     get name _LAST = Some o ->
     r ∈ roots ->
     (forall t, path_resolve P t (path_str P (path o)) = Ok p_abs) ->
     (forall t, path_resolve P t (path_str P r) = Ok r_abs) ->
     path_is_relative_to P p_abs r_abs = true ->
     (forall t, path_exists P t (path_str P (path o)) = Ok false) ->
     (vanished_under_roots P _LAST name roots t).1
       = Ok (Some (path_str P (path o)))).
Proof.
  unfold vanished_under_roots. split.
  - destruct (get name _LAST); [apply vanished_loop_returns|by eauto].
  - intros o r p_abs r_abs -> Hr Hp Hrp Hrel Hgone.
    by eapply vanished_loop_finds.
Qed.

End LedgerFacts.

(** The root [/proj] is gone with everything below it; [/other] was
    never a parent of the path. *)
Lemma vanished_under_roots_robust_witness :
  OriginsCache.path_exists (world_paths []) 0 "/proj" = Ok false /\
  (OriginsCache.vanished_under_roots (world_paths []) foo_ledger "foo"
     ["/other"; "/proj"] 0).1 = Ok (Some "/proj/foo.py").
Proof.
  split; [reflexivity|].
  apply (proj2 (vanished_under_roots_robust (world_paths []) foo_ledger "foo"
                  ["/other"; "/proj"] 0)
           (OriginsCache.mkLastOrigin "foo" "/proj/foo.py") "/proj"
           "/proj/foo.py" "/proj");
    first [reflexivity | by intros | by (right; left)].
Defined.

(** * Further properties of the helpers of resolve.py *)

Section HelperProperties.

Context (E : Env).

(** X1. [_is_under_any] treats its roots as a set and is monotone in
    them: a path under one of the roots stays under the roots when roots
    are added, reordered or repeated. *)
Theorem is_under_any_monotone (p : string) (rc1 rc2 : list string) :
  (forall r, r ∈ rc1 -> r ∈ rc2) ->
  _is_under_any E p rc1 = true ->
  _is_under_any E p rc2 = true.
Proof.
  intros Hsub. rewrite !_is_under_any_spec.
  intros (r & Hr & Hunder). exists r. auto.
Qed.

Lemma _roots_loop_shape (rs ar0 cr0 ar rc : list string) (st : State) :
  value (_roots_loop E rs ar0 cr0 st) = Ok (ar, rc) ->
  exists news,
    ar = (ar0 ++ news)%list /\
    rc = (cr0 ++ map (env_normcase E) news)%list /\
    Forall2 (fun r a => env_abspath E r = Ok a) (filter (fun r => r <> "") rs) news.
Proof.
  revert ar0 cr0. induction rs as [|r rs IH]; intros ar0 cr0; cbn [_roots_loop].
  - cbn. intros [= <- <-]. exists []. rewrite !app_nil_r. by repeat split.
  - destruct (String.eqb_spec r "") as [->|Hne].
    + intros Hv. destruct (IH _ _ Hv) as (news & -> & -> & Hall).
      exists news. rewrite filter_cons_False by naive_solver. done.
    + munfold. destruct (env_abspath E r) as [a|e] eqn:Habs; [|done].
      destruct (_roots_loop E rs _ _ st) as [v st' ev] eqn:Hrun.
      cbn [value]. intros ->.
      assert (value (_roots_loop E rs (ar0 ++ [a])%list
                (cr0 ++ [env_normcase E a])%list st) = Ok (ar, rc)) as Hv
        by (by rewrite Hrun).
      destruct (IH _ _ Hv) as (news & -> & -> & Hall).
      exists (a :: news). rewrite filter_cons_True by done.
      rewrite <- !app_assoc. split; [done|]. split; [done|]. by constructor.
Qed.

(** X2. What [_roots] returns: the absolute roots are the
    [os.path.abspath] of the non-empty managed roots, in order (the
    invocation root alone when the policy lists none); the comparison
    roots are their [normcase]; the state is untouched. *)
Theorem roots_normalized (policy : Policy) (root : string) (st : State)
    (abs_roots cmp_roots : list string) :
  value (_roots E policy root st) = Ok (abs_roots, cmp_roots) ->
  Forall2 (fun r a => env_abspath E r = Ok a) (nonempty_roots policy root) abs_roots /\
  cmp_roots = map (env_normcase E) abs_roots /\
  final (_roots E policy root st) = st /\
  events (_roots E policy root st) = [].
Proof.
  intros Hv. destruct (_roots_loop_shape _ _ _ _ _ _ Hv) as (news & -> & -> & Hall).
  rewrite (_roots_value E _ _ _ _ Hv). by repeat split.
Qed.

(** X3. [_observe_candidate] is best effort: it never raises, leaves the
    cache, the index memo, the clock and the records of other names alone;
    it records the candidate when its path normalizes under a root, and
    changes nothing otherwise. *)
Theorem observe_candidate_effect (name : string) (c : Candidate)
    (rc : list string) (st : State) :
  value (_observe_candidate E name c rc st) = Ok tt /\
  cache (final (_observe_candidate E name c rc st)) = cache st /\
  index_memo (final (_observe_candidate E name c rc st)) = index_memo st /\
  clock (final (_observe_candidate E name c rc st)) = clock st /\
  (forall other, other <> name ->
     observed (final (_observe_candidate E name c rc st)) !! other
       = observed st !! other) /\
  (forall p, env_abspath E (path c) = Ok p -> _is_under_any E p rc = true ->
     observed (final (_observe_candidate E name c rc st)) !! name
       = Some (mkObserved c)) /\
  ((forall p, env_abspath E (path c) = Ok p -> _is_under_any E p rc = false) ->
     final (_observe_candidate E name c rc st) = st).
Proof.
  unfold _observe_candidate. munfold. destruct st as [ca ob im cl].
  destruct (env_abspath E (path c)) as [p|e] eqn:Habs; cbn.
  - destruct (_is_under_any E p rc) eqn:Hunder; cbn.
    + repeat split; try done.
      * intros other Hne. by rewrite lookup_insert_ne.
      * intros _ _ _. by rewrite lookup_insert_eq.
      * intros H. specialize (H p eq_refl). congruence.
    + repeat split; try done. intros q [= <-]. congruence.
  - repeat split; done.
Qed.

(** X4. [_observe_python_spec]: a spec without a file origin (no origin,
    an empty one, ["built-in"], ["frozen"]) is ignored without any effect;
    whatever it records is recorded for the name, with the normalized
    origin as path, lying under a root, as a package with its directory
    exactly when the path ends in [os.sep + "__init__.py"]. *)
Theorem observe_python_spec_effect (name : string) (s : ModuleSpec)
    (rc : list string) (st : State) :
  (spec_origin s = None \/ spec_origin s = Some "" \/
   spec_origin s = Some "built-in" \/ spec_origin s = Some "frozen" ->
   _observe_python_spec E name s rc st = mkRun (Ok tt) st []) /\
  (forall n c,
     EvObservedPut n c ∈ events (_observe_python_spec E name s rc st) ->
     n = name /\
     value (_observe_python_spec E name s rc st) = Ok tt /\
     observed (final (_observe_python_spec E name s rc st)) !! name
       = Some (mkObserved c) /\
     (exists origin, spec_origin s = Some origin /\
                     env_abspath E origin = Ok (path c)) /\
     _is_under_any E (path c) rc = true /\
     (if endswith (path c) (env_sep E ++ "__init__.py")
      then kind c = kind_package /\ package_dir c = Some (env_dirname E (path c))
      else kind c = kind_module /\ package_dir c = None)).
Proof.
  unfold _observe_python_spec. munfold. destruct st as [ca ob im cl]. split.
  - intros [->|[->|[->| ->]]]; reflexivity.
  - intros n c. repeat (cbn; try mstep); cbn; intros Hin; mem_cases Hin.
    all: simplify_eq; cbn in *; try congruence.
    all: repeat match goal with
         | H : negb _ = false |- _ => apply negb_false_iff in H
         end.
    all: rewrite lookup_insert_eq; repeat split; eauto.
Qed.

Lemma add_if_vanished_hit (rc : list string) (h p : string) (v : gset string)
    (st : State) :
  env_abspath E h = Ok p ->
  _is_under_any E p rc = true ->
  (forall t, env_exists E t p = Ok false) ->
  try_except (add_if_vanished E rc h v) (ret v) st
    = mkRun (Ok ({[p]} ∪ v))
            (mkState (cache st) (observed st) (index_memo st) (S (clock st))) [].
Proof.
  intros Habs Hunder Hgone. unfold add_if_vanished. munfold.
  destruct st as [ca ob im cl]. cbn. rewrite Habs. cbn. rewrite Hunder. cbn.
  rewrite Hgone. reflexivity.
Qed.

Lemma _deleted_paths_hints_complete (rc hints : list string) (v v' : gset string)
    (st : State) (p : string) :
  p ∈ v \/ from_hint E hints p ->
  _is_under_any E p rc = true ->
  (forall t, env_exists E t p = Ok false) ->
  value (_deleted_paths_hints E rc hints v st) = Ok v' ->
  p ∈ v'.
Proof.
  intros Hsrc Hunder Hgone. revert v st Hsrc.
  induction hints as [|h hints IH]; intros v st Hsrc.
  - cbn. intros [= <-]. destruct Hsrc as [?|(h & Hh & _)]; [done|].
    by apply elem_of_nil in Hh.
  - cbn [_deleted_paths_hints]. unfold bind at 1.
    destruct (add_if_vanished_guarded E rc h v st) as (v1 & n1 & Hrun & _ & Hv1).
    assert (p ∈ v1 \/ from_hint E hints p) as Hsrc1.
    { destruct Hsrc as [Hp|(h' & Hh' & Habs)].
      - left. destruct Hv1 as [Heq|(q & Heq & _)]; rewrite Heq; [done|].
        apply elem_of_union. by right.
      - apply elem_of_cons in Hh' as [->|Hh']; [|right; by exists h'].
        left. rewrite (add_if_vanished_hit rc h p v st Habs Hunder Hgone) in Hrun.
        injection Hrun as <- _. apply elem_of_union. left.
        by apply elem_of_singleton. }
    rewrite Hrun.
    destruct (_deleted_paths_hints E rc hints v1 _) as [w st2 ev2] eqn:Hrest.
    cbn. intros ->. eapply IH; [exact Hsrc1|]. by rewrite Hrest.
Qed.

Lemma _deleted_paths_hints_clock (rc hints : list string) (v : gset string)
    (st : State) :
  clock st <= clock (final (_deleted_paths_hints E rc hints v st))
    <= clock st + length hints.
Proof.
  revert v st. induction hints as [|h hints IH]; intros v st; [cbn; lia|].
  cbn [_deleted_paths_hints length].
  remember (try_except (add_if_vanished E rc h v) (ret v)) as body.
  unfold bind.
  destruct (add_if_vanished_guarded E rc h v st) as (v1 & n1 & Hrun & Hn1 & _).
  subst body. rewrite Hrun.
  remember (mkState (cache st) (observed st) (index_memo st) (clock st + n1)) as st1.
  specialize (IH v1 st1).
  destruct (_deleted_paths_hints E rc hints v1 st1) as [w st2 ev2].
  subst st1. cbn in *. lia.
Qed.

(** X5. [_deleted_paths] misses nothing: a hint, or the path of the
    Observed Record of the name, that normalizes under a root and is not
    on the disk is in the list it returns, whatever the other hints are
    and whatever goes wrong while they are examined. *)
Theorem deleted_paths_complete (name : string) (rc hints : list string)
    (st : State) (p : string) :
  from_hint E hints p \/ from_observed E st name p ->
  _is_under_any E p rc = true ->
  (forall t, env_exists E t p = Ok false) ->
  exists l, value (_deleted_paths E name rc hints st) = Ok l /\ p ∈ l.
Proof.
  intros Hsrc Hunder Hgone.
  unfold _deleted_paths. unfold bind at 1, emit. unfold bind at 1.
  destruct (_deleted_paths_hints_run E rc hints ∅ st) as (v1 & n1 & Hrun & _ & _).
  assert (from_hint E hints p -> p ∈ v1) as Hhint.
  { intros Hfrom. eapply _deleted_paths_hints_complete; eauto.
    by rewrite Hrun. }
  rewrite Hrun. unfold bind at 1.
  destruct (observed_block_run E name rc v1
    (mkState (cache st) (observed st) (index_memo st) (clock st + n1)))
    as (v2 & n2 & Hblock & Hv2).
  assert (p ∈ v2) as Hp.
  { destruct Hsrc as [Hfrom|(o & Ho & Habs)].
    - specialize (Hhint Hfrom).
      destruct Hv2 as [Heq|(q & Heq & _)]; rewrite Heq; [done|].
      apply elem_of_union. by right.
    - clear Hv2. revert Hblock. unfold add_if_vanished. munfold. cbn.
      rewrite Ho. cbn. rewrite Habs. cbn. rewrite Hunder. cbn. rewrite Hgone. cbn.
      intros [= <- _]. apply elem_of_union. left. by apply elem_of_singleton. }
  rewrite Hblock. cbn. exists (sorted v2). split; [done|].
  by apply elem_of_sorted.
Qed.

Lemma observed_block_clock (name : string) (rc : list string) (v : gset string)
    (st : State) :
  clock st
    <= clock (final (try_except
         (obs <- observed_get name ;;
          match obs with
          | Some o => add_if_vanished E rc (path (observed_candidate o)) v
          | None => ret v
          end)
         (ret v) st))
    <= S (clock st).
Proof.
  unfold add_if_vanished. munfold. destruct st as [ca ob im cl].
  repeat (cbn; try mstep); cbn; lia.
Qed.

Lemma _deleted_paths_clock (name : string) (rc hints : list string) (st : State) :
  clock (final (_deleted_paths E name rc hints st)) <= clock st + length hints + 1.
Proof.
  pose proof (_deleted_paths_hints_clock rc hints ∅ st) as Hclock.
  unfold _deleted_paths. unfold bind at 1, emit. unfold bind at 1.
  destruct (_deleted_paths_hints_run E rc hints ∅ st) as (v1 & n1 & Hrun & _ & _).
  rewrite Hrun in *. cbn in Hclock. unfold bind at 1.
  pose proof (observed_block_clock name rc v1
    (mkState (cache st) (observed st) (index_memo st) (clock st + n1))) as Hblock.
  destruct (observed_block_run E name rc v1
    (mkState (cache st) (observed st) (index_memo st) (clock st + n1)))
    as (v2 & n2 & Hrun2 & _).
  rewrite Hrun2 in *. cbn in *. lia.
Qed.

(** X6. [_deleted_paths] is harmless: it never raises, whatever
    [os.path.abspath] and [os.path.exists] do; it leaves the cache, the
    Observed Records and the index memo as they were; and it looks at the
    disk at most once per hint and once more for the Observed Record. *)
Theorem deleted_paths_harmless (name : string) (rc hints : list string)
    (st : State) :
  (exists l, value (_deleted_paths E name rc hints st) = Ok l) /\
  cache (final (_deleted_paths E name rc hints st)) = cache st /\
  observed (final (_deleted_paths E name rc hints st)) = observed st /\
  index_memo (final (_deleted_paths E name rc hints st)) = index_memo st /\
  clock st <= clock (final (_deleted_paths E name rc hints st))
    <= clock st + length hints + 1.
Proof.
  pose proof (_deleted_paths_clock name rc hints st) as Hclock.
  destruct (_deleted_paths_run E name rc hints st) as (l & n & Hrun & _).
  rewrite Hrun in *. cbn in *. split; [by eauto|]. repeat split; try done; lia.
Qed.

End HelperProperties.

Lemma roots_normalized_witness :
  value (_roots single_world default_policy "/proj" empty_state)
    = Ok (["/proj"], ["/proj"]) /\
  Forall2 (fun r a => env_abspath single_world r = Ok a)
          (nonempty_roots default_policy "/proj") ["/proj"] /\
  ["/proj"] = map (env_normcase single_world) ["/proj"] /\
  final (_roots single_world default_policy "/proj" empty_state) = empty_state /\
  events (_roots single_world default_policy "/proj" empty_state) = [].
Proof.
  split; [reflexivity|].
  apply (roots_normalized single_world default_policy "/proj" empty_state
           ["/proj"] ["/proj"]).
  reflexivity.
Defined.

Lemma is_under_any_monotone_witness :
  _is_under_any single_world "/proj/foo.py" ["/proj"] = true /\
  _is_under_any single_world "/proj/foo.py" ["/other"; "/proj"; "/proj"] = true.
Proof.
  assert (_is_under_any single_world "/proj/foo.py" ["/proj"] = true) as H
    by reflexivity.
  split; [exact H|].
  apply (is_under_any_monotone single_world "/proj/foo.py" ["/proj"]
           ["/other"; "/proj"; "/proj"]); [|exact H].
  intros r Hr. apply list_elem_of_singleton in Hr as ->. by (right; left).
Defined.

(** * Further properties of [resolve] *)

Section ObservationRuns.

Context (E : Env).

Lemma _observe_candidate_exact (name : string) (c : Candidate) (rc : list string)
    (st : State) :
  exists obs' evs,
    _observe_candidate E name c rc st
      = mkRun (Ok tt) (mkState (cache st) obs' (index_memo st) (clock st)) evs /\
    ((obs' = observed st /\ evs = []) \/
     (obs' = <[name := mkObserved c]> (observed st) /\
      evs = [EvObservedPut name c])).
Proof.
  unfold _observe_candidate. munfold. destruct st as [ca ob im cl].
  repeat (cbn; try mstep); eauto 10.
Qed.

Lemma _observe_python_spec_exact (name : string) (s : ModuleSpec)
    (rc : list string) (st : State) :
  exists v obs' evs,
    _observe_python_spec E name s rc st
      = mkRun v (mkState (cache st) obs' (index_memo st) (clock st)) evs /\
    ((obs' = observed st /\ evs = []) \/
     (exists c, obs' = <[name := mkObserved c]> (observed st) /\
                evs = [EvObservedPut name c])).
Proof.
  unfold _observe_python_spec. munfold. destruct st as [ca ob im cl].
  repeat (cbn; try mstep); eauto 10.
Qed.

End ObservationRuns.

(** As [mhelper], keeping what the observations did to the records. *)
Ltac mhelper_exact :=
  match goal with
  | |- context [_roots ?E ?p ?r ?st] =>
      let v := fresh "rv" in
      let H := fresh in
      destruct (_roots_pure E p r) as [v H]; rewrite !H
  | |- context [_observe_python_spec ?E ?n ?s ?rc ?st] =>
      let H := fresh in
      let Hev := fresh in
      destruct (_observe_python_spec_exact E n s rc st) as (? & ? & ? & H & Hev);
      rewrite H; clear H; destruct Hev as [[-> ->]|(? & -> & ->)]
  | |- context [_observe_candidate ?E ?n ?c ?rc ?st] =>
      let H := fresh in
      let Hev := fresh in
      destruct (_observe_candidate_exact E n c rc st) as (? & ? & H & Hev);
      rewrite H; clear H; destruct Hev as [[-> ->]|[-> ->]]
  | |- context [_deleted_paths ?E ?n ?rc ?h ?st] =>
      let H := fresh in
      let Hs := fresh "Hsorted" in
      let Hn := fresh "Hnodup" in
      let Hp := fresh "Hpaths" in
      destruct (_deleted_paths_run E n rc h st) as (? & ? & H & Hs & Hn & Hp);
      rewrite H; clear H
  end.

Ltac mrun_exact :=
  repeat (cbn; first [rewrite lookup_empty | mhelper_exact | mstep]).

(** What [cache_fresh] being true says. *)
Ltac mfresh :=
  repeat match goal with
  | H : cache_fresh _ ?b ?o = true |- _ =>
      unfold cache_fresh in H; destruct o; [|discriminate H];
      apply andb_true_iff in H as [-> H]; apply bool_decide_eq_true in H
  end.

Ltac mem_solve :=
  solve [repeat first [apply list_elem_of_here | apply list_elem_of_further]].

Section ResolveProperties.

Context (E : Env).

(** X7. [resolve] keeps to its name: the cache entries and the Observed
    Records of every other name are the same after the call as before,
    whatever the call returns or raises. *)
Theorem resolve_touches_one_name (fullname root : string) (policy : Policy)
    (exclude_dirs : gset string) (max_files : Z)
    (search_path : option (list string)) (st : State) (other : string) :
  other <> fullname ->
  cache (final (resolve E fullname root policy exclude_dirs max_files search_path st))
    !! other = cache st !! other /\
  observed (final (resolve E fullname root policy exclude_dirs max_files
                            search_path st)) !! other = observed st !! other.
Proof.
  intros Hne. destruct policy as [rts ce rod]. destruct st as [ca ob im cl].
  remember (final (resolve E fullname root (mkPolicy rts ce rod) exclude_dirs
                           max_files search_path (mkState ca ob im cl))) as fs eqn:Hfs.
  revert Hfs. mresolve. mrun_exact.
  all: cbn; intros ->; cbn.
  all: rewrite ?lookup_insert_ne, ?lookup_delete_ne by done; done.
Qed.

(** X8. The retry is bounded: one call walks the directory tree at most
    twice, invalidates the index at most once and asks the index for
    candidates at most twice; a second lookup only follows an
    invalidation. *)
Theorem resolve_scans_bounded (fullname root : string) (policy : Policy)
    (exclude_dirs : gset string) (max_files : Z)
    (search_path : option (list string)) (st : State) :
  count_events is_scan_event
    (events (resolve E fullname root policy exclude_dirs max_files search_path st))
    <= 2 /\
  count_events is_invalidate_event
    (events (resolve E fullname root policy exclude_dirs max_files search_path st))
    <= 1 /\
  count_events is_lookup_event
    (events (resolve E fullname root policy exclude_dirs max_files search_path st))
    <= 1 + count_events is_invalidate_event
    (events (resolve E fullname root policy exclude_dirs max_files search_path st)).
Proof.
  destruct policy as [rts ce rod]. destruct st as [ca ob im cl].
  remember (events (resolve E fullname root (mkPolicy rts ce rod) exclude_dirs
                            max_files search_path (mkState ca ob im cl))) as evs eqn:Hevs.
  revert Hevs. mresolve. mrun.
  all: cbn; intros ->; cbn; lia.
Qed.

(** X9. The gates come before everything: for a name that is not a
    supported fullname, or that the policy declines, [resolve] returns
    [UNHANDLED] without asking the host, touching the registry or the
    index, or looking at the disk. *)
Theorem resolve_gated (fullname root : string) (policy : Policy)
    (exclude_dirs : gset string) (max_files : Z)
    (search_path : option (list string)) (st : State) :
  env_supported E fullname = false \/
  handle (env_decide E fullname policy) = false ->
  resolve E fullname root policy exclude_dirs max_files search_path st
    = mkRun (Ok UNHANDLED) st [].
Proof.
  unfold resolve. intros [H|H].
  - by rewrite H.
  - destruct (env_supported E fullname); [|done]. by rewrite H.
Qed.


(** X11. What [Resolved] guarantees: the outcome is for the requested
    name, carries the policy's [managed] flag, and is only returned when
    the name passed both gates and the host did not resolve it; during the
    call the verifier reported the returned candidate valid and
    [make_spec] built the returned descriptor from it; and the candidate
    is either the one of the cache entry for the name or the only
    candidate the index gave for it. *)
Theorem resolved_is_verified (fullname root : string) (policy : Policy)
    (exclude_dirs : gset string) (max_files : Z)
    (search_path : option (list string)) (st : State)
    (n : string) (c : Candidate) (s : ModuleSpec) (m : bool) :
  value (resolve E fullname root policy exclude_dirs max_files search_path st)
    = Ok (Resolved n c s m) ->
  n = fullname /\
  m = managed (env_decide E fullname policy) /\
  env_supported E fullname = true /\
  handle (env_decide E fullname policy) = true /\
  env_find_spec E (clock st) fullname search_path = None /\
  (exists t fp1,
     clock st <= t < clock (final (resolve E fullname root policy exclude_dirs
                                           max_files search_path st)) /\
     env_verify E t c = (true, fp1)) /\
  (exists t,
     clock st <= t < clock (final (resolve E fullname root policy exclude_dirs
                                           max_files search_path st)) /\
     env_make_spec E t fullname c = Some s) /\
  ((exists entry, cache_enabled policy = true /\
                  cache st !! fullname = Some entry /\
                  cached_candidate entry = c) \/
   EvCandidates fullname [c]
     ∈ events (resolve E fullname root policy exclude_dirs max_files search_path st)).
Proof.
  destruct policy as [rts ce rod]. destruct st as [ca ob im cl].
  remember (resolve E fullname root (mkPolicy rts ce rod) exclude_dirs
                    max_files search_path (mkState ca ob im cl)) as run eqn:Hrun.
  revert Hrun. mresolve. mrun.
  all: cbn; intros -> Hv; cbn in Hv; simplify_eq; mfresh; mclean; cbn.
  all: split; [done|]; split; [done|]; split; [done|]; split; [done|].
  all: split; [done|].
  all: split;
    [ match goal with
      | H : env_verify E ?t ?cc = (true, ?f)
        |- exists t fp1, _ /\ env_verify E t ?cc = (true, fp1) =>
          exists t, f; split; [lia|exact H]
      end |].
  all: split;
    [ match goal with
      | H : env_make_spec E ?t _ _ = Some _ |- _ =>
          exists t; split; [lia|exact H]
      end |].
  all: first [ left; eexists; split; [reflexivity|]; split; reflexivity
             | right; mem_solve ].
Qed.

(** X12. The cache is written on success only: [resolve] puts an entry
    in the cache only for the requested name, only when caching is
    enabled, and only in a call that returns [Resolved] with the entry's
    candidate; the fingerprint stored is the one the verifier gave for
    that candidate, with [ok], during the call, and the entry is in the
    cache when the call returns. *)
Theorem cache_written_on_success (fullname root : string) (policy : Policy)
    (exclude_dirs : gset string) (max_files : Z)
    (search_path : option (list string)) (st : State)
    (n : string) (entry : Cached) :
  EvCachePut n entry
    ∈ events (resolve E fullname root policy exclude_dirs max_files search_path st) ->
  n = fullname /\
  cache_enabled policy = true /\
  (exists s,
     value (resolve E fullname root policy exclude_dirs max_files search_path st)
       = Ok (Resolved fullname (cached_candidate entry) s
                      (managed (env_decide E fullname policy)))) /\
  (exists t,
     clock st <= t < clock (final (resolve E fullname root policy exclude_dirs
                                           max_files search_path st)) /\
     env_verify E t (cached_candidate entry) = (true, fp entry)) /\
  cache (final (resolve E fullname root policy exclude_dirs max_files
                        search_path st)) !! fullname = Some entry.
Proof.
  destruct policy as [rts ce rod]. destruct st as [ca ob im cl].
  remember (resolve E fullname root (mkPolicy rts ce rod) exclude_dirs
                    max_files search_path (mkState ca ob im cl)) as run eqn:Hrun.
  revert Hrun. mresolve. mrun.
  all: cbn; intros -> Hin; cbn in Hin; mem_cases Hin; simplify_eq; mclean; cbn.
  all: split; [done|]; split; [done|]; split; [by eexists|].
  all: split; [|by rewrite lookup_insert_eq].
  all: match goal with
       | H : env_verify E ?t ?cc = (true, ?f)
         |- exists t, _ /\ env_verify E t ?cc = (true, ?f) =>
           exists t; split; [lia|exact H]
       end.
Qed.

(** X13. No stale entry survives: with caching enabled, a call that
    passes the gates, finds the host unable to resolve the name and
    returns anything but [Resolved] leaves no cache entry for the name. *)
Theorem unresolved_leaves_no_entry (fullname root : string) (policy : Policy)
    (exclude_dirs : gset string) (max_files : Z)
    (search_path : option (list string)) (st : State) (out : Outcome) :
  cache_enabled policy = true ->
  env_supported E fullname = true ->
  handle (env_decide E fullname policy) = true ->
  env_find_spec E (clock st) fullname search_path = None ->
  value (resolve E fullname root policy exclude_dirs max_files search_path st)
    = Ok out ->
  (forall n c s m, out <> Resolved n c s m) ->
  cache (final (resolve E fullname root policy exclude_dirs max_files
                        search_path st)) !! fullname = None.
Proof.
  intros Hce Hsup Hh Hfs. destruct policy as [rts ce rod]. cbn in Hce. subst ce.
  destruct st as [ca ob im cl]. cbn in Hfs.
  remember (resolve E fullname root (mkPolicy rts true rod) exclude_dirs
                    max_files search_path (mkState ca ob im cl)) as run eqn:Hrun.
  revert Hrun. mresolve. mrun.
  all: cbn; intros -> Hv Hnot; cbn in Hv; mclean; try congruence; cbn.
  all: try (by rewrite lookup_delete_eq).
  all: try done.
  all: exfalso; eapply Hnot; reflexivity.
Qed.

Lemma sorted_singleton (p : string) : sorted {[p]} = [p].
Proof. unfold sorted. by rewrite elements_singleton. Qed.

Lemma _deleted_paths_observed_only (name : string) (rc : list string) (st : State)
    (o : Observed) (p : string) :
  observed st !! name = Some o ->
  env_abspath E (path (observed_candidate o)) = Ok p ->
  _is_under_any E p rc = true ->
  (forall t, env_exists E t p = Ok false) ->
  value (_deleted_paths E name rc [] st) = Ok [p].
Proof.
  intros Ho Habs Hunder Hgone. unfold _deleted_paths, add_if_vanished. munfold.
  cbn. rewrite Ho. cbn. rewrite Habs. cbn. rewrite Hunder. cbn. rewrite Hgone. cbn.
  by rewrite (right_id_L ∅ (∪)), sorted_singleton.
Qed.

(** X15. Deletion diagnosis: when the name passes the gates, the host
    cannot resolve it, no cache entry is consulted, the index has no
    candidate for it, [raise_on_deleted] is set, and the Observed Record
    of the name points under a managed root at a path that is not on the
    disk, [resolve] returns [Deleted] listing exactly that path. *)
Theorem deleted_when_observed_gone (fullname root : string) (policy : Policy)
    (exclude_dirs : gset string) (max_files : Z)
    (search_path : option (list string)) (st : State)
    (abs_roots roots_cmp : list string) (o : Observed) (p : string) :
  env_supported E fullname = true ->
  handle (env_decide E fullname policy) = true ->
  value (_roots E policy root st) = Ok (abs_roots, roots_cmp) ->
  env_find_spec E (clock st) fullname search_path = None ->
  raise_on_deleted policy = true ->
  cache_enabled policy = false \/ cache st !! fullname = None ->
  (forall idx, index_memo st !! (root, exclude_dirs, max_files) = Some idx ->
               default [] (idx !! fullname) = []) ->
  default [] (env_scan E (S (clock st)) root exclude_dirs max_files !! fullname) = [] ->
  observed st !! fullname = Some o ->
  env_abspath E (path (observed_candidate o)) = Ok p ->
  _is_under_any E p roots_cmp = true ->
  (forall t, env_exists E t p = Ok false) ->
  value (resolve E fullname root policy exclude_dirs max_files search_path st)
    = Ok (Deleted fullname [p] (managed (env_decide E fullname policy))).
Proof.
  intros Hsup Hh Hr Hfs Hrod Hcache Hmemo Hscan Ho Habs Hunder Hgone.
  pose proof (_roots_value E _ _ _ _ Hr) as Hroots. clear Hr.
  destruct st as [ca ob im cl]. cbn in Hfs, Hcache, Hmemo, Hscan, Ho.
  destruct (im !! (root, exclude_dirs, max_files)) as [idx|] eqn:Hm;
    [specialize (Hmemo idx eq_refl)|clear Hmemo].
  all: unfold resolve, resolve_scan; munfold.
  all: destruct Hcache as [Hce|Hnone].
  all: repeat (cbn; first
    [ mrewrite
    | match goal with
      | |- context [_deleted_paths ?E ?n ?rc ?h ?st0] =>
          let Hval := fresh "Hval" in
          let Hrun := fresh "Hrun" in
          pose proof (_deleted_paths_observed_only n rc st0 o p Ho Habs Hunder Hgone)
            as Hval;
          destruct (_deleted_paths_run E n rc h st0) as (? & ? & Hrun & _);
          rewrite Hrun in Hval |- *; cbn in Hval; injection Hval as ->
      end
    | mstep ]).
  all: try reflexivity; cbn in *; congruence.
Qed.

Lemma cache_hit_run (fullname root : string) (policy : Policy)
    (exclude_dirs : gset string) (max_files : Z)
    (search_path : option (list string)) (st : State)
    (abs_roots roots_cmp : list string) (c : Cached) (f : Fingerprint)
    (spec : ModuleSpec) :
  env_supported E fullname = true ->
  handle (env_decide E fullname policy) = true ->
  (forall st', _roots E policy root st'
               = mkRun (Ok (abs_roots, roots_cmp)) st' []) ->
  cache_enabled policy = true ->
  env_find_spec E (clock st) fullname search_path = None ->
  cache st !! fullname = Some c ->
  fp c = Some f ->
  env_verify E (S (clock st)) (cached_candidate c) = (true, Some f) ->
  env_make_spec E (S (S (clock st))) fullname (cached_candidate c) = Some spec ->
  value (resolve E fullname root policy exclude_dirs max_files search_path st)
    = Ok (Resolved fullname (cached_candidate c) spec
                   (managed (env_decide E fullname policy))) /\
  Forall (fun ev => is_index_event ev = false)
    (events (resolve E fullname root policy exclude_dirs max_files search_path st)) /\
  cache (final (resolve E fullname root policy exclude_dirs max_files
                        search_path st)) = cache st /\
  index_memo (final (resolve E fullname root policy exclude_dirs max_files
                             search_path st)) = index_memo st.
Proof.
  intros Hsup Hh Hroots Hce Hfs Hc Hfp Hv Hms.
  destruct st as [ca ob im cl]. cbn in Hfs, Hc, Hv, Hms.
  unfold resolve. munfold. unfold cache_fresh. mrun_hyps.
  all: cbn; split; [reflexivity|]; split; [|split; reflexivity].
  all: repeat first [exact I | apply Forall_nil | apply Forall_cons; split; [reflexivity|]].
Qed.

Lemma resolved_leaves_entry (fullname root : string) (policy : Policy)
    (exclude_dirs : gset string) (max_files : Z)
    (search_path : option (list string)) (st : State)
    (n : string) (c : Candidate) (s : ModuleSpec) (m : bool) (f : Fingerprint) :
  cache_enabled policy = true ->
  (forall t, env_verify E t c = (true, Some f)) ->
  value (resolve E fullname root policy exclude_dirs max_files search_path st)
    = Ok (Resolved n c s m) ->
  env_supported E fullname = true /\
  handle (env_decide E fullname policy) = true /\
  n = fullname /\ m = managed (env_decide E fullname policy) /\
  (exists abs_roots roots_cmp, forall st',
     _roots E policy root st' = mkRun (Ok (abs_roots, roots_cmp)) st' []) /\
  exists entry,
    cache (final (resolve E fullname root policy exclude_dirs max_files
                          search_path st)) !! fullname = Some entry /\
    cached_candidate entry = c /\ fp entry = Some f.
Proof.
  intros Hce Hverify. destruct policy as [rts ce rod]. cbn in Hce. subst ce.
  destruct st as [ca ob im cl].
  remember (resolve E fullname root (mkPolicy rts true rod) exclude_dirs
                    max_files search_path (mkState ca ob im cl)) as run eqn:Hrun.
  revert Hrun. mresolve. mrun.
  all: cbn; intros -> Hv; cbn in Hv; simplify_eq; mfresh; mclean; cbn.
  all: repeat match goal with
       | H : env_verify E ?t _ = (true, _) |- _ =>
           rewrite (Hverify t) in H; simplify_eq
       end.
  all: split; [done|]; split; [done|]; split; [done|]; split; [done|].
  all: split; [by eauto|].
  all: eexists; split; [first [by rewrite lookup_insert_eq | eassumption]|].
  all: by split.
Qed.

(** X14. Cache round trip: with caching enabled and a world that keeps
    still (the host does not resolve the name, the verifier gives the
    candidate the same fingerprint, the builder the same descriptor), a
    call that returned [Resolved] is followed by a call that returns the
    same [Resolved] from the cache, without index lookup, scan or
    invalidation, and without changing the cache. *)
Theorem resolve_twice (fullname root : string) (policy : Policy)
    (exclude_dirs : gset string) (max_files : Z)
    (search_path : option (list string)) (st : State)
    (c : Candidate) (s : ModuleSpec) (m : bool) (f : Fingerprint) :
  cache_enabled policy = true ->
  (forall t, env_find_spec E t fullname search_path = None) ->
  (forall t, env_verify E t c = (true, Some f)) ->
  (forall t, env_make_spec E t fullname c = Some s) ->
  value (resolve E fullname root policy exclude_dirs max_files search_path st)
    = Ok (Resolved fullname c s m) ->
  let st1 := final (resolve E fullname root policy exclude_dirs max_files
                             search_path st) in
  value (resolve E fullname root policy exclude_dirs max_files search_path st1)
    = Ok (Resolved fullname c s m) /\
  Forall (fun ev => is_index_event ev = false)
    (events (resolve E fullname root policy exclude_dirs max_files search_path st1)) /\
  cache (final (resolve E fullname root policy exclude_dirs max_files
                        search_path st1)) = cache st1 /\
  index_memo (final (resolve E fullname root policy exclude_dirs max_files
                             search_path st1)) = index_memo st1.
Proof.
  intros Hce Hfs Hverify Hms Hv st1.
  destruct (resolved_leaves_entry _ _ _ _ _ _ _ _ _ _ _ f Hce Hverify Hv)
    as (Hsup & Hh & _ & -> & (ar & rc & Hroots) & entry & Hentry & <- & Hfp).
  apply (cache_hit_run fullname root policy exclude_dirs max_files search_path st1
           ar rc entry f s); auto.
Qed.

Lemma _roots_loop_all_empty (rs ar cr : list string) (st : State) :
  filter (fun r => r <> "") rs = [] ->
  _roots_loop E rs ar cr st = mkRun (Ok (ar, cr)) st [].
Proof.
  induction rs as [|r rs IH]; cbn [_roots_loop]; [done|].
  destruct (String.eqb_spec r "") as [->|Hne].
  - rewrite filter_cons_False by naive_solver. apply IH.
  - by rewrite filter_cons_True.
Qed.

Lemma _observe_candidate_no_roots (name : string) (c : Candidate) (st : State) :
  _observe_candidate E name c [] st = mkRun (Ok tt) st [].
Proof.
  unfold _observe_candidate. munfold. destruct st as [ca ob im cl].
  by destruct (env_abspath E (path c)).
Qed.

Lemma _observe_python_spec_no_roots (name : string) (s : ModuleSpec) (st : State) :
  exists v, _observe_python_spec E name s [] st = mkRun v st [].
Proof.
  unfold _observe_python_spec. munfold. destruct st as [ca ob im cl].
  repeat (cbn; try mstep); eauto.
Qed.

(** X16. No usable root: when every managed root is the empty string,
    [_roots] keeps none of them, so [resolve] never returns [Deleted] and
    never writes an Observed Record. *)
Theorem no_root_no_diagnosis (fullname root : string) (policy : Policy)
    (exclude_dirs : gset string) (max_files : Z)
    (search_path : option (list string)) (st : State) :
  nonempty_roots policy root = [] ->
  (forall n l m,
     value (resolve E fullname root policy exclude_dirs max_files search_path st)
       <> Ok (Deleted n l m)) /\
  observed (final (resolve E fullname root policy exclude_dirs max_files
                           search_path st)) = observed st.
Proof.
  intros Hempty.
  assert (forall st', _roots E policy root st' = mkRun (Ok ([], [])) st' []) as Hroots
    by (intros st'; by apply _roots_loop_all_empty).
  destruct policy as [rts ce rod]. destruct st as [ca ob im cl].
  remember (resolve E fullname root (mkPolicy rts ce rod) exclude_dirs
                    max_files search_path (mkState ca ob im cl)) as run eqn:Hrun.
  revert Hrun. mresolve.
  repeat (cbn; first
    [ rewrite lookup_empty
    | rewrite !Hroots
    | rewrite _observe_candidate_no_roots
    | match goal with
      | |- context [_observe_python_spec ?E ?n ?s [] ?st0] =>
          let H := fresh in
          destruct (_observe_python_spec_no_roots n s st0) as [? H]; rewrite H; clear H
      end
    | mhelper
    | mstep ]).
  all: cbn; intros ->; cbn.
  all: split; [|done].
  all: try (intros; congruence).
  all: intros ? ? ? [= <- <- <-].
  all: match goal with
       | Hpaths : forall p, p ∈ ?s :: _ -> _ |- _ =>
           destruct (Hpaths s ltac:(left)) as (_ & Hunder & _); discriminate Hunder
       end.
Qed.

End ResolveProperties.

(** * Further properties of the Origin Ledger *)

Section LedgerProperties.

Import OriginsCache.

Context (P : PathEnv).

(** X17. [record] and [get]: recording a non-empty path for a non-empty
    name makes [get] return it, replacing what was there; an empty name
    or an empty path is ignored; the entries of other names are kept. *)
Theorem record_get (name p other : string) (_LAST : Ledger) :
  (name <> "" -> p <> "" ->
   get name (record name p _LAST) = Some (mkLastOrigin name p)) /\
  (name = "" \/ p = "" -> record name p _LAST = _LAST) /\
  (other <> name -> get other (record name p _LAST) = get other _LAST).
Proof.
  unfold record, get.
  destruct (String.eqb_spec name "") as [->|Hn];
    destruct (String.eqb_spec p "") as [->|Hp]; cbn.
  all: repeat split; try done; try (intros [?|?]; done).
  - intros _ _. by rewrite lookup_insert_eq.
  - intros Hne. by rewrite lookup_insert_ne.
Qed.

Lemma under_root_and_gone_sound (p rp s : string) (t t' : nat) :
  under_root_and_gone P p rp t = (Ok (Some s), t') ->
  s = p /\
  exists p_abs r_abs,
    path_resolve P t p = Ok p_abs /\
    path_resolve P (S t) rp = Ok r_abs /\
    path_is_relative_to P p_abs r_abs = true /\
    path_exists P (S (S t)) p = Ok false.
Proof.
  unfold under_root_and_gone. intros H.
  repeat case_match; simplify_eq.
  split; [done|]. eexists _, _. repeat split; try done.
  - by apply negb_false_iff.
  - match goal with H : negb ?b = true |- _ => by destruct b end.
Qed.

Lemma under_root_and_gone_clock (p rp : string) (t : nat) :
  t <= (under_root_and_gone P p rp t).2.
Proof. unfold under_root_and_gone. repeat case_match; cbn; lia. Qed.

Lemma vanished_loop_sound (p s : string) (roots : list string) (t : nat) :
  (vanished_loop P p roots t).1 = Ok (Some s) ->
  s = p /\
  exists r p_abs r_abs t1,
    r ∈ roots /\ t <= t1 /\
    path_resolve P t1 p = Ok p_abs /\
    path_resolve P (S t1) (path_str P r) = Ok r_abs /\
    path_is_relative_to P p_abs r_abs = true /\
    path_exists P (S (S t1)) p = Ok false.
Proof.
  revert t. induction roots as [|r0 roots IH]; intros t; [done|].
  cbn. pose proof (under_root_and_gone_clock p (path_str P r0) t) as Hclock.
  destruct (under_root_and_gone P p (path_str P r0) t) as [[[s0|]|e] t1] eqn:Hbody.
  - cbn. intros [= ->].
    destruct (under_root_and_gone_sound _ _ _ _ _ Hbody)
      as (-> & p_abs & r_abs & ? & ? & ? & ?).
    split; [done|]. exists r0, p_abs, r_abs, t. repeat split; try done. left.
  - intros H. destruct (IH _ H) as (-> & r & p_abs & r_abs & t2 & ? & ? & ?).
    split; [done|]. exists r, p_abs, r_abs, t2. cbn in Hclock.
    split; [by right|]. split; [lia|done].
  - intros H. destruct (IH _ H) as (-> & r & p_abs & r_abs & t2 & ? & ? & ?).
    split; [done|]. exists r, p_abs, r_abs, t2. cbn in Hclock.
    split; [by right|]. split; [lia|done].
Qed.

(** X18. What [vanished_under_roots] returns is justified: a returned
    path is the one recorded for the name; during the call it resolved
    below the resolved form of one of the given roots, and
    [Path.exists()] then said it is gone. *)
Theorem vanished_under_roots_sound (_LAST : Ledger) (name : string)
    (roots : list string) (t : nat) (s : string) :
  (vanished_under_roots P _LAST name roots t).1 = Ok (Some s) ->
  exists o r p_abs r_abs t1,
    get name _LAST = Some o /\
    s = path_str P (path o) /\
    r ∈ roots /\ t <= t1 /\
    path_resolve P t1 s = Ok p_abs /\
    path_resolve P (S t1) (path_str P r) = Ok r_abs /\
    path_is_relative_to P p_abs r_abs = true /\
    path_exists P (S (S t1)) s = Ok false.
Proof.
  unfold vanished_under_roots. destruct (get name _LAST) as [o|]; [|done].
  intros H. destruct (vanished_loop_sound _ _ _ _ H)
    as (-> & r & p_abs & r_abs & t1 & ? & ? & ? & ? & ? & ?).
  by exists o, r, p_abs, r_abs, t1.
Qed.

End LedgerProperties.

(** ** The further properties on concrete worlds *)

Lemma deleted_paths_complete_witness :
  from_hint deleted_world ["/proj/foo.py"] "/proj/foo.py" /\
  exists l,
    value (_deleted_paths deleted_world "foo" ["/proj"] ["/proj/foo.py"] empty_state)
      = Ok l /\ "/proj/foo.py" ∈ l.
Proof.
  assert (from_hint deleted_world ["/proj/foo.py"] "/proj/foo.py") as H
    by (exists "/proj/foo.py"; split; [left|reflexivity]).
  split; [exact H|].
  apply (deleted_paths_complete deleted_world "foo" ["/proj"] ["/proj/foo.py"]
           empty_state "/proj/foo.py" (or_introl H)); [reflexivity|].
  intros t. reflexivity.
Defined.

Lemma resolve_touches_one_name_witness :
  cache (final (resolve single_world "foo" "/proj" default_policy ∅ 100 None
                        empty_state)) !! "bar" = cache empty_state !! "bar" /\
  observed (final (resolve single_world "foo" "/proj" default_policy ∅ 100 None
                            empty_state)) !! "bar" = observed empty_state !! "bar".
Proof.
  apply (resolve_touches_one_name single_world "foo" "/proj" default_policy ∅ 100
           None empty_state "bar").
  discriminate.
Defined.

Lemma resolve_gated_witness :
  handle (env_decide declined_world "foo" default_policy) = false /\
  resolve declined_world "foo" "/proj" default_policy ∅ 100 None cached_state
    = mkRun (Ok UNHANDLED) cached_state [].
Proof.
  split; [reflexivity|].
  apply (resolve_gated declined_world "foo" "/proj" default_policy ∅ 100 None
           cached_state).
  right. reflexivity.
Defined.


Lemma resolved_is_verified_witness :
  value (resolve single_world "foo" "/proj" default_policy ∅ 100 None empty_state)
    = Ok (Resolved "foo" foo_py (mkModuleSpec "foo" (Some "/proj/foo.py")) true) /\
  exists t fp1,
    clock empty_state <= t
      < clock (final (resolve single_world "foo" "/proj" default_policy ∅ 100 None
                              empty_state)) /\
    env_verify single_world t foo_py = (true, fp1).
Proof.
  assert (value (resolve single_world "foo" "/proj" default_policy ∅ 100 None
                         empty_state)
          = Ok (Resolved "foo" foo_py (mkModuleSpec "foo" (Some "/proj/foo.py")) true))
    as H by reflexivity.
  split; [exact H|].
  exact (proj1 (proj2 (proj2 (proj2 (proj2 (proj2
    (resolved_is_verified single_world "foo" "/proj" default_policy ∅ 100 None
       empty_state "foo" foo_py (mkModuleSpec "foo" (Some "/proj/foo.py")) true
       H))))))).
Defined.

Lemma cache_written_on_success_witness :
  EvCachePut "foo" (mkCached foo_py (Some [1%Z]))
    ∈ events (resolve single_world "foo" "/proj" default_policy ∅ 100 None
                      empty_state) /\
  cache (final (resolve single_world "foo" "/proj" default_policy ∅ 100 None
                        empty_state)) !! "foo"
    = Some (mkCached foo_py (Some [1%Z])).
Proof.
  assert (EvCachePut "foo" (mkCached foo_py (Some [1%Z]))
    ∈ events (resolve single_world "foo" "/proj" default_policy ∅ 100 None
                      empty_state)) as H by (vm_compute; repeat constructor).
  split; [exact H|].
  exact (proj2 (proj2 (proj2 (proj2
    (cache_written_on_success single_world "foo" "/proj" default_policy ∅ 100 None
       empty_state "foo" (mkCached foo_py (Some [1%Z])) H))))).
Defined.

Lemma unresolved_leaves_no_entry_witness :
  cache cached_state !! "foo" = Some (mkCached foo_py (Some [1%Z])) /\
  value (resolve deleted_world "foo" "/proj" default_policy ∅ 100 None cached_state)
    = Ok (Deleted "foo" ["/proj/foo.py"] true) /\
  cache (final (resolve deleted_world "foo" "/proj" default_policy ∅ 100 None
                        cached_state)) !! "foo" = None.
Proof.
  split; [reflexivity|]. split; [reflexivity|].
  apply (unresolved_leaves_no_entry deleted_world "foo" "/proj" default_policy ∅ 100
           None cached_state (Deleted "foo" ["/proj/foo.py"] true));
    try reflexivity.
  discriminate.
Defined.

Lemma resolve_twice_witness :
  let first := resolve single_world "foo" "/proj" default_policy ∅ 100 None
                       empty_state in
  value first
    = Ok (Resolved "foo" foo_py (mkModuleSpec "foo" (Some "/proj/foo.py")) true) /\
  value (resolve single_world "foo" "/proj" default_policy ∅ 100 None (final first))
    = Ok (Resolved "foo" foo_py (mkModuleSpec "foo" (Some "/proj/foo.py")) true) /\
  Forall (fun ev => is_index_event ev = false)
    (events (resolve single_world "foo" "/proj" default_policy ∅ 100 None
                     (final first))).
Proof.
  intros first.
  assert (value first
          = Ok (Resolved "foo" foo_py (mkModuleSpec "foo" (Some "/proj/foo.py")) true))
    as H by reflexivity.
  split; [exact H|].
  destruct (resolve_twice single_world "foo" "/proj" default_policy ∅ 100 None
              empty_state foo_py (mkModuleSpec "foo" (Some "/proj/foo.py")) true
              [1%Z] eq_refl (fun _ => eq_refl) (fun _ => eq_refl) (fun _ => eq_refl) H)
    as (H1 & H2 & _).
  exact (conj H1 H2).
Defined.

Lemma deleted_when_observed_gone_witness :
  observed observed_state !! "foo" = Some (mkObserved foo_py) /\
  value (resolve deleted_world "foo" "/proj" default_policy ∅ 100 None observed_state)
    = Ok (Deleted "foo" ["/proj/foo.py"] true).
Proof.
  split; [reflexivity|].
  apply (deleted_when_observed_gone deleted_world "foo" "/proj" default_policy ∅ 100
           None observed_state ["/proj"] ["/proj"] (mkObserved foo_py)
           "/proj/foo.py");
    first [ reflexivity
          | by right
          | intros idx Hidx; discriminate Hidx
          | intros t; reflexivity ].
Defined.

Lemma no_root_no_diagnosis_witness :
  nonempty_roots (mkPolicy [""] true true) "/proj" = [] /\
  value (resolve deleted_world "foo" "/proj" (mkPolicy [""] true true) ∅ 100 None
                 cached_state) = Ok UNHANDLED /\
  observed (final (resolve deleted_world "foo" "/proj" (mkPolicy [""] true true) ∅
                           100 None cached_state)) = observed cached_state.
Proof.
  assert (nonempty_roots (mkPolicy [""] true true) "/proj" = []) as H by reflexivity.
  split; [exact H|]. split; [reflexivity|].
  exact (proj2 (no_root_no_diagnosis deleted_world "foo" "/proj"
                  (mkPolicy [""] true true) ∅ 100 None cached_state H)).
Defined.

Lemma vanished_under_roots_sound_witness :
  (OriginsCache.vanished_under_roots (world_paths []) foo_ledger "foo"
     ["/other"; "/proj"] 0).1 = Ok (Some "/proj/foo.py") /\
  exists o r p_abs r_abs t1,
    OriginsCache.get "foo" foo_ledger = Some o /\
    "/proj/foo.py" = OriginsCache.path_str (world_paths []) (OriginsCache.path o) /\
    r ∈ ["/other"; "/proj"] /\ 0 <= t1 /\
    OriginsCache.path_resolve (world_paths []) t1 "/proj/foo.py" = Ok p_abs /\
    OriginsCache.path_resolve (world_paths []) (S t1)
      (OriginsCache.path_str (world_paths []) r) = Ok r_abs /\
    OriginsCache.path_is_relative_to (world_paths []) p_abs r_abs = true /\
    OriginsCache.path_exists (world_paths []) (S (S t1)) "/proj/foo.py" = Ok false.
Proof.
  assert ((OriginsCache.vanished_under_roots (world_paths []) foo_ledger "foo"
             ["/other"; "/proj"] 0).1 = Ok (Some "/proj/foo.py")) as H
    by reflexivity.
  split; [exact H|].
  exact (vanished_under_roots_sound (world_paths []) foo_ledger "foo"
           ["/other"; "/proj"] 0 "/proj/foo.py" H).
Defined.
